(** * icon-composer/build_svg.py: a shallow embedding and its properties

    The script combines two SVG files into one document made of two
    [<symbol>] definitions and two [<use>] placements, and optionally
    calls Inkscape for a PNG rendering.  The embedding follows the
    script function by function: [extract_inner], [get_viewbox] and the
    blocks of [main] in the order in which they are written. *)

From Stdlib Require Import ZArith NArith List String Ascii QArith Qround Lia.
From Stdlib Require Import Floats.SpecFloat DecimalString.
From stdpp Require Import gmap.

Local Open Scope N_scope.

(** ** Text

    A Python [str] is a sequence of Unicode code points. *)

Abbreviation text := (list N).

Definition str (s : string) : text := map N_of_ascii (list_ascii_of_string s).

Definition c_quot  : N := 34.  (* the double quote *)
Definition c_apos  : N := 39.  (* the single quote *)
Definition c_slash : N := 47.  (* / *)
Definition c_lt    : N := 60.  (* < *)
Definition c_gt    : N := 62.  (* > *)

(** ** The pieces of the [re] module that the script uses *)

Definition charclass := N -> bool.

(** A pattern literal outside [(?i)] matches its own code point only. *)
Definition lit (c : N) : charclass := N.eqb c.

(** Under [(?i)] a literal [s] of a [str] pattern matches [s], [S] and
    U+017F (LATIN SMALL LETTER LONG S, which case-folds to [s]); [v] and
    [g] match their two ASCII cases; [<], [/] and [>] have no case. *)
Definition is_s (c : N) : bool := (c =? 115) || (c =? 83) || (c =? 383).
Definition is_v (c : N) : bool := (c =? 118) || (c =? 86).
Definition is_g (c : N) : bool := (c =? 103) || (c =? 71).

Definition is_quote (c : N) : bool := (c =? c_quot) || (c =? c_apos).

(** A sequence of single-character pattern items matched at the start
    of the subject. *)
Fixpoint prefix_matches (p : list charclass) (s : text) : bool :=
  match p, s with
  | [], _ => true
  | _ :: _, [] => false
  | f :: p', c :: s' => f c && prefix_matches p' s'
  end.

(** [<svg] and [</svg>] under [(?is)]. *)
Definition pat_open : list charclass := [lit c_lt; is_s; is_v; is_g].
Definition pat_close : list charclass :=
  [lit c_lt; lit c_slash; is_s; is_v; is_g; lit c_gt].

(** [viewBox=], case-sensitive. *)
Definition pat_viewBox : list charclass := map lit (str "viewBox=").

(** [[^>]*>] : the greedy run stops at the first [>]; the result is the
    number of code points consumed, [None] when no [>] follows. *)
Fixpoint run_to_gt (s : text) : option nat :=
  match s with
  | [] => None
  | c :: r => if c =? c_gt then Some 1%nat else option_map S (run_to_gt r)
  end.

(** [(?is)<svg[^>]*>] anchored at the start of [s]: length of the match. *)
Definition match_open_tag (s : text) : option nat :=
  if prefix_matches pat_open s
  then option_map (Nat.add 4) (run_to_gt (drop 4 s))
  else None.

(** [(?is)</svg>] anchored at the start of [s]: length of the match. *)
Definition match_close_tag (s : text) : option nat :=
  if prefix_matches pat_close s then Some 6%nat else None.

(** [re.sub(pattern, '', s)] for a pattern that matches no empty string:
    the subject is scanned from the left, every match found is dropped
    and the scan resumes behind it.  [m] gives the length of the match
    that starts at the current position; [skip] counts the code points
    of the current match still to drop. *)
Fixpoint re_sub_del (m : text -> option nat) (skip : nat) (s : text) : text :=
  match s with
  | [] => []
  | c :: r =>
      match skip with
      | S k => re_sub_del m k r
      | O =>
          match m s with
          | Some (S k) => re_sub_del m k r
          | _ => c :: re_sub_del m O r
          end
      end
  end.

(** [re.search]: the match at the leftmost position that has one. *)
Fixpoint re_search {A : Type} (m : text -> option A) (s : text) : option A :=
  match m s with
  | Some g => Some g
  | None =>
      match s with
      | [] => None
      | _ :: r => re_search m r
      end
  end.

(** The maximal run of code points other than the two quote characters
    at the start of [s], and what follows it. *)
Fixpoint span_unquoted (s : text) : text * text :=
  match s with
  | [] => ([], [])
  | c :: r =>
      if is_quote c then ([], s)
      else let '(v, r') := span_unquoted r in (c :: v, r')
  end.

(** The pattern of [get_viewbox] anchored at the start of [s]: the
    literal [viewBox=], a quote character of either kind, group 1 made
    of one or more code points that are not quote characters, and a
    quote character of either kind.  The result is group 1. *)
Definition match_viewBox (s : text) : option text :=
  if prefix_matches pat_viewBox s then
    match drop 8 s with
    | q :: r =>
        if is_quote q then
          match span_unquoted r with
          | ((_ :: _) as v, q' :: _) => if is_quote q' then Some v else None
          | _ => None
          end
        else None
    | [] => None
    end
  else None.

(** ** [str.strip()]

    Without argument it removes the code points for which
    [str.isspace] holds, from both ends. *)
Definition isspace (c : N) : bool :=
  ((9 <=? c) && (c <=? 13)) || ((28 <=? c) && (c <=? 32))
  || (c =? 133) || (c =? 160) || (c =? 5760)
  || ((8192 <=? c) && (c <=? 8202))
  || (c =? 8232) || (c =? 8233) || (c =? 8239) || (c =? 8287) || (c =? 12288).

Fixpoint lstrip (s : text) : text :=
  match s with
  | [] => []
  | c :: r => if isspace c then lstrip r else s
  end.

Definition rstrip (s : text) : text := rev (lstrip (rev s)).

Definition strip (s : text) : text := rstrip (lstrip s).

(** Lines 28-30 of [extract_inner], on the text read from the file. *)
Definition strip_svg_tags (text0 : text) : text :=
  let inner := re_sub_del match_open_tag 0 text0 in
  let inner := re_sub_del match_close_tag 0 inner in
  strip inner.

(** Lines 34-35 of [get_viewbox], on the text read from the file. *)
Definition find_viewBox (text0 : text) : option text :=
  re_search match_viewBox text0.

(** ** Numbers

    [int] is unbounded; [float] is IEEE 754 binary64, taken from the
    specification of floating-point arithmetic of the standard library
    at precision 53 and maximal exponent 1024. *)

Local Open Scope Z_scope.

Abbreviation float := spec_float.

Definition prec : Z := 53.
Definition emax : Z := 1024.

Inductive open_mode := ModeR | ModeW.

(** The exceptions that the script can meet.  [IOError] records which
    [open] call raised it; [LaunchError] is the [OSError] of a
    subprocess that could not be started. *)
Inductive exn :=
| SystemExit (arg : text + Z)
| IOError (mode : open_mode) (path : text)
| UnicodeDecodeError (path : text)
| ValueError
| OverflowError
| LaunchError (msg : text)
| CalledProcessError (cmd : list text) (returncode : Z).

Inductive res (A : Type) :=
| Return (a : A)
| Raise (e : exn).
Arguments Return {A} a.
Arguments Raise {A} e.

Definition res_bind {A B : Type} (r : res A) (k : A -> res B) : res B :=
  match r with
  | Return a => k a
  | Raise e => Raise e
  end.

(** The conversion of the [int] operand of [int * float]: rounded to
    nearest even, [OverflowError] beyond the range of binary64. *)
Definition float_of_int (z : Z) : res float :=
  match binary_normalize prec emax z 0 false with
  | S754_infinity _ => Raise OverflowError
  | f => Return f
  end.

(** [base_w * scale] with [base_w] an [int] and [scale] a [float]. *)
Definition int_mul_float (z : Z) (x : float) : res float :=
  res_bind (float_of_int z) (fun fz => Return (SFmul prec emax fz x)).

(** [int(x)] of a [float]: truncation towards zero; [ValueError] on NaN
    and [OverflowError] on an infinity. *)
Definition int_of_float (x : float) : res Z :=
  match x with
  | S754_zero _ => Return 0
  | S754_infinity _ => Raise OverflowError
  | S754_nan => Raise ValueError
  | S754_finite s m e =>
      let a := Z.shiftl (Z.pos m) e in
      Return (if s then - a else a)
  end.

(** The decimal digits of an [int], with [-] in front of a negative
    one: what [str(n)] and [{n}] in an f-string give when they give
    something. *)
Definition str_of_Z (n : Z) : text := str (NilZero.string_of_int (Z.to_int n)).

(** The conversion of an [int] to its digits raises [ValueError] when
    there are more than [sys.int_max_str_digits] of them, 4300 unless
    the interpreter is told otherwise; the sign does not count. *)
Definition max_str_digits : Z := 4300.

Definition str_convertible (n : Z) : bool := Z.abs n <? 10 ^ max_str_digits.

Definition str_int (n : Z) : res text :=
  if str_convertible n then Return (str_of_Z n) else Raise ValueError.

(** ** The command line, as [parse_args] returns it

    [nargs=2] options are two-element lists, kept as pairs; an absent
    [--badge-offset] is [None].  A two-element list is truthy whatever
    its elements, so [if args.badge_offset] tests presence only. *)
Record Namespace := {
  base : text;
  badge : text;
  output : text;
  main_size : Z * Z;
  badge_size : Z * Z;
  badge_offset : option (Z * Z);
  main_scale : float;
  export_png : bool
}.

(** The values computed by lines 63-73 of [main]. *)
Record Geometry := {
  main_w : Z;
  main_h : Z;
  main_x : Z;
  main_y : Z;
  badge_x : Z;
  badge_y : Z
}.

(** Lines 63-64: [int(base_w * scale)]. *)
Definition scaled (n : Z) (scale : float) : res Z :=
  res_bind (int_mul_float n scale) int_of_float.

(** Lines 69-73. *)
Definition badge_position (args : Namespace) : Z * Z :=
  let '(base_w, base_h) := main_size args in
  let '(badge_w, badge_h) := badge_size args in
  match badge_offset args with
  | Some (x, y) => (x, y)
  | None => (base_w - badge_w, base_h - badge_h)
  end.

(** Lines 58-73.  [//] is the floor division, which is [Z.div] for the
    positive divisor 2. *)
Definition geometry (args : Namespace) : res Geometry :=
  let '(base_w, base_h) := main_size args in
  let scale := main_scale args in
  res_bind (scaled base_w scale) (fun main_w =>
  res_bind (scaled base_h scale) (fun main_h =>
  let main_x := (base_w - main_w) / 2 in
  let main_y := (base_h - main_h) / 2 in
  let '(badge_x, badge_y) := badge_position args in
  Return {| main_w := main_w; main_h := main_h;
            main_x := main_x; main_y := main_y;
            badge_x := badge_x; badge_y := badge_y |})).

(** ** The process and its surroundings

    A path leads to a file whose text [read()] delivers (decoded, with
    universal newlines), to a file that is not valid UTF-8, or to
    something that [open] refuses; a path outside the map does not
    exist.  Standard error receives messages and, for an exception
    that nothing catches, the traceback of the interpreter. *)
Inductive node :=
| File (content : text)
| Undecodable
| NoAccess.

Inductive report :=
| Message (msg : text)
| Traceback (e : exn).

Record world := {
  fs : gmap text node;
  stdout : list text;
  stderr : list report
}.

Definition M (A : Type) : Type := world -> world * res A.

Definition ret {A : Type} (a : A) : M A := fun w => (w, Return a).

Definition raise {A : Type} (e : exn) : M A := fun w => (w, Raise e).

Definition bind {A B : Type} (c : M A) (k : A -> M B) : M B :=
  fun w =>
    match c w with
    | (w', Return a) => k a w'
    | (w', Raise e) => (w', Raise e)
    end.

Notation "x <- c ;; k" := (bind c (fun x => k))
  (at level 100, c at next level, right associativity).
Notation "c ;;; k" := (bind c (fun _ => k))
  (at level 100, right associativity).

Definition lift {A : Type} (r : res A) : M A := fun w => (w, r).

(** [try: c except <handled> as e: h e]. *)
Definition try_except {A : Type} (c : M A) (handled : exn -> bool)
    (h : exn -> M A) : M A :=
  fun w =>
    match c w with
    | (w', Raise e) => if handled e then h e w' else (w', Raise e)
    | r => r
    end.

(** [IOError] is [OSError]; a failed [open] raises it. *)
Definition is_IOError (e : exn) : bool :=
  match e with
  | IOError _ _ => true
  | _ => false
  end.

(** [Exception] covers everything here but [SystemExit]. *)
Definition is_Exception (e : exn) : bool :=
  match e with
  | SystemExit _ => false
  | _ => true
  end.

(** [open(path, 'r', encoding='utf-8').read()]. *)
Definition open_read (path : text) : M text :=
  fun w =>
    match fs w !! path with
    | Some (File t) => (w, Return t)
    | Some Undecodable => (w, Raise (UnicodeDecodeError path))
    | Some NoAccess | None => (w, Raise (IOError ModeR path))
    end.

Definition sys_exit {A : Type} (arg : text + Z) : M A := raise (SystemExit arg).

Definition print (line : text) : M unit :=
  fun w => ({| fs := fs w; stdout := stdout w ++ [line]; stderr := stderr w |},
            Return tt).

Definition print_stderr (line : text) : M unit :=
  fun w => ({| fs := fs w; stdout := stdout w;
               stderr := stderr w ++ [Message line] |}, Return tt).

(** The en dash of the message of [extract_inner]. *)
Definition c_ndash : N := 8211.

(** The f-string of line 27. *)
Definition not_found_msg (svg_path : text) : text :=
  str "Fehler: Datei nicht gefunden " ++ [c_ndash] ++ str " " ++ svg_path.

(** Lines 23-30. *)
Definition extract_inner (svg_path : text) : M text :=
  text0 <- try_except (open_read svg_path) is_IOError
             (fun _ => sys_exit (inl (not_found_msg svg_path))) ;;
  ret (strip_svg_tags text0).

(** Lines 32-35. *)
Definition get_viewbox (svg_path : text) : M (option text) :=
  text0 <- open_read svg_path ;;
  ret (find_viewBox text0).

(** [a or b] with [a] an optional string: [None] and the empty string
    are falsy. *)
Definition py_or (a : option text) (b : text) : text :=
  match a with
  | Some ((_ :: _) as v) => v
  | _ => b
  end.

(** [f"0 0 {w} {h}"], for the numbers of lines 78-79: [int] of a
    binary64 product, or parsed from the command line, so short enough
    for the conversion to digits. *)
Definition default_viewbox (w h : Z) : text :=
  str "0 0 " ++ str_of_Z w ++ str " " ++ str_of_Z h.

(** What lines 76-79 bind. *)
Record Sources := {
  base_inner : text;
  badge_inner : text;
  base_vb : text;
  badge_vb : text
}.

(** Lines 76-79. *)
Definition read_sources (args : Namespace) (g : Geometry) : M Sources :=
  let '(badge_w, badge_h) := badge_size args in
  base_inner <- extract_inner (base args) ;;
  badge_inner <- extract_inner (badge args) ;;
  vb <- get_viewbox (base args) ;;
  let base_vb := py_or vb (default_viewbox (main_w g) (main_h g)) in
  vb' <- get_viewbox (badge args) ;;
  let badge_vb := py_or vb' (default_viewbox badge_w badge_h) in
  ret {| base_inner := base_inner; badge_inner := badge_inner;
         base_vb := base_vb; badge_vb := badge_vb |}.

(** Text between double quotes, as in [viewBox="{base_vb}"]. *)
Definition dq (t : text) : text := c_quot :: t ++ [c_quot].

Definition nl : text := [10%N].

(** The f-string of lines 90-91, with the digits of [badge_x] and of
    [badge_y] given. *)
Definition use_badge (x y : text) (badge_w badge_h : Z) : text :=
  str "  <use href=" ++ dq (str "#telegram") ++ str " x="
    ++ dq x ++ str " y=" ++ dq y
    ++ str " width=" ++ dq (str_of_Z badge_w)
    ++ str " height=" ++ dq (str_of_Z badge_h) ++ str "/>" ++ nl.

(** The arguments of the six [out.write] calls of lines 83-89, in
    order.  The numbers written here were parsed from the command line
    by [int], which takes no more than 4300 digits, or they are [int]
    of a binary64 product or half the difference of such numbers once
    line 63 has converted the canvas size to binary64: their
    conversion to digits cannot raise. *)
Definition document_head (args : Namespace) (g : Geometry) (src : Sources)
  : list text :=
  let '(base_w, base_h) := main_size args in
  [ str "<svg xmlns=" ++ dq (str "http://www.w3.org/2000/svg")
      ++ str " width=" ++ dq (str_of_Z base_w)
      ++ str " height=" ++ dq (str_of_Z base_h) ++ str ">" ++ nl;
    str "  <defs>" ++ nl;
    str "    <symbol id=" ++ dq (str "matrix") ++ str "  viewBox="
      ++ dq (base_vb src) ++ str ">" ++ nl ++ base_inner src ++ nl
      ++ str "    </symbol>" ++ nl;
    str "    <symbol id=" ++ dq (str "telegram") ++ str " viewBox="
      ++ dq (badge_vb src) ++ str ">" ++ nl ++ badge_inner src ++ nl
      ++ str "    </symbol>" ++ nl;
    str "  </defs>" ++ nl;
    str "  <use href=" ++ dq (str "#matrix") ++ str "   x="
      ++ dq (str_of_Z (main_x g)) ++ str " y=" ++ dq (str_of_Z (main_y g))
      ++ str " width=" ++ dq (str_of_Z (main_w g))
      ++ str " height=" ++ dq (str_of_Z (main_h g)) ++ str "/>" ++ nl ].

(** Lines 90-91 as they are evaluated: [badge_x] and [badge_y] can be
    the differences of lines 72-73, which can have one digit more than
    the numbers parsed, so their conversion can raise; [badge_w] and
    [badge_h] were parsed. *)
Definition use_badge_fstring (args : Namespace) (g : Geometry) : res text :=
  let '(badge_w, badge_h) := badge_size args in
  res_bind (str_int (badge_x g)) (fun x =>
  res_bind (str_int (badge_y g)) (fun y =>
  Return (use_badge x y badge_w badge_h))).

(** The arguments of the eight [out.write] calls of lines 83-92, in
    order, when all of them are evaluated. *)
Definition document_chunks (args : Namespace) (g : Geometry) (src : Sources)
  : list text :=
  let '(badge_w, badge_h) := badge_size args in
  document_head args g src
  ++ [ use_badge (str_of_Z (badge_x g)) (str_of_Z (badge_y g)) badge_w badge_h;
       str "</svg>" ++ nl ].

(** ** [os.path.splitext] (posixpath) *)

Definition c_dot : N := 46.

(** [s.rfind(c)]: the index of the last occurrence, [-1] without one. *)
Fixpoint rfind (c : N) (s : text) : Z :=
  match s with
  | [] => -1
  | x :: r =>
      let i := rfind c r in
      if 0 <=? i then i + 1 else if N.eqb x c then 0 else -1
  end.

(** The extension starts at the last dot of the last path component,
    unless that component has nothing but dots before it. *)
Definition splitext (p : text) : text * text :=
  let sepIndex := rfind c_slash p in
  let dotIndex := rfind c_dot p in
  if sepIndex <? dotIndex then
    let filename := drop (Z.to_nat (sepIndex + 1)) p in
    let before_dot := take (Z.to_nat (dotIndex - (sepIndex + 1))) filename in
    if existsb (fun c => negb (N.eqb c c_dot)) before_dot
    then (take (Z.to_nat dotIndex) p, drop (Z.to_nat dotIndex) p)
    else (p, [])
  else (p, []).

(** ** What the script does not control

    Whether [open(path, 'w')] succeeds, what the Inkscape subprocess
    does to the files and how it ends, and the text of [str(e)] for
    the exception caught at line 108. *)
Inductive completed :=
| NotStarted (msg : text)
| Exited (returncode : Z) (fs' : gmap text node).

Record Host := {
  writable : text -> bool;
  subprocess : list text -> gmap text node -> completed;
  exn_str : exn -> text
}.

Section Process.

Variable host : Host.

(** [open(path, 'w', encoding='utf-8')]: the file is created or
    truncated. *)
Definition open_write (path : text) : M unit :=
  fun w =>
    if writable host path
    then ({| fs := <[path := File []]> (fs w);
             stdout := stdout w; stderr := stderr w |}, Return tt)
    else (w, Raise (IOError ModeW path)).

(** [out.write(s)] on the file opened at [path]. *)
Definition write (path : text) (s : text) : M unit :=
  fun w =>
    match fs w !! path with
    | Some (File t) =>
        ({| fs := <[path := File (t ++ s)]> (fs w);
            stdout := stdout w; stderr := stderr w |}, Return tt)
    | _ => (w, Return tt)
    end.

Fixpoint write_each (path : text) (chunks : list text) : M unit :=
  match chunks with
  | [] => ret tt
  | s :: rest => write path s ;;; write_each path rest
  end.

(** Lines 82-92.  An exception inside the [with] block closes the
    file with what was written so far. *)
Definition write_document (args : Namespace) (g : Geometry) (src : Sources)
  : M unit :=
  open_write (output args) ;;;
  write_each (output args) (document_head args g src) ;;;
  line <- lift (use_badge_fstring args g) ;;
  write (output args) line ;;;
  write (output args) (str "</svg>" ++ nl).

(** [subprocess.run(cmd, check=True)]. *)
Definition subprocess_run_check (cmd : list text) : M unit :=
  fun w =>
    match subprocess host cmd (fs w) with
    | NotStarted msg => (w, Raise (LaunchError msg))
    | Exited rc fs' =>
        let w' := {| fs := fs'; stdout := stdout w; stderr := stderr w |} in
        if rc =? 0 then (w', Return tt)
        else (w', Raise (CalledProcessError cmd rc))
    end.

(** The command of lines 100-106; line 83 has converted [base_w] and
    [base_h] to digits before. *)
Definition inkscape_cmd (args : Namespace) (png_path : text) : list text :=
  let '(base_w, base_h) := main_size args in
  [ str "inkscape"; output args; str "--export-type=png";
    str "--export-filename"; png_path;
    str "--export-width"; str_of_Z base_w;
    str "--export-height"; str_of_Z base_h ].

(** Lines 97-110. *)
Definition export (args : Namespace) : M unit :=
  if export_png args then
    let png_path := fst (splitext (output args)) ++ str ".png" in
    try_except
      (subprocess_run_check (inkscape_cmd args png_path) ;;;
       print (str "PNG exportiert: " ++ png_path))
      is_Exception
      (fun e =>
         print_stderr (str "Fehler beim PNG-Export: " ++ exn_str host e) ;;;
         sys_exit (inr 1))
  else ret tt.

(** Lines 58-94: everything up to the confirmation of the SVG. *)
Definition build (args : Namespace) : M unit :=
  g <- lift (geometry args) ;;
  src <- read_sources args g ;;
  write_document args g src ;;;
  print (str "SVG exportiert: " ++ output args).

(** Lines 58-110: [main] from the return of [parse_args] on, with the
    namespace that it returned. *)
Definition main (args : Namespace) : M unit :=
  build args ;;; export args.

(** The interpreter around [main], for a command line that
    [parse_args] has accepted: [sys.exit] with a string prints it
    on standard error and exits with status 1, with an integer it exits
    with that status; any other exception leaves a traceback and status
    1; a normal return gives status 0. *)
Definition run (args : Namespace) (w : world) : Z * world :=
  match main args w with
  | (w', Return _) => (0, w')
  | (w', Raise (SystemExit (inl msg))) =>
      (1, {| fs := fs w'; stdout := stdout w';
             stderr := stderr w' ++ [Message msg] |})
  | (w', Raise (SystemExit (inr code))) => (code, w')
  | (w', Raise e) =>
      (1, {| fs := fs w'; stdout := stdout w';
             stderr := stderr w' ++ [Traceback e] |})
  end.

End Process.

(** ** Statements of the specification, for comparison with the code *)

(** The rational number that a finite [float] denotes. *)
Definition Q_of_float (x : float) : Q :=
  match x with
  | S754_finite s m e =>
      let a := if 0 <=? e then inject_Z (Z.pos m * 2 ^ e)
               else Z.pos m # Pos.pow 2 (Z.to_pos (- e)) in
      if s then Qopp a else a
  | _ => 0%Q
  end.

Definition is_finite (x : float) : bool :=
  match x with
  | S754_zero _ | S754_finite _ _ _ => true
  | _ => false
  end.

Definition is_negative (x : float) : bool :=
  match x with
  | S754_finite true _ _ => true
  | _ => false
  end.

(** [x // 2] said with the floor of a quotient. *)
Definition floor_half (n : Z) : Z := Qfloor (inject_Z n / 2).

(** What lines 76-79 bind when both files deliver their text. *)
Definition sources_of (args : Namespace) (g : Geometry) (tb tg : text)
  : Sources :=
  {| base_inner := strip_svg_tags tb;
     badge_inner := strip_svg_tags tg;
     base_vb := py_or (find_viewBox tb)
                  (default_viewbox (main_w g) (main_h g));
     badge_vb := py_or (find_viewBox tg)
                   (default_viewbox (fst (badge_size args))
                      (snd (badge_size args))) |}.

(** The output document as section 4.4 describes it: a root element
    with a size, a definitions block of named symbols, each with its
    coordinate box and content, and placements that name a symbol. *)
Record Symbol := {
  sym_id : text;
  sym_gap : nat;
  sym_viewBox : text;
  sym_content : text
}.

Record Use := {
  use_href : text;
  use_gap : nat;
  use_x : Z;
  use_y : Z;
  use_width : Z;
  use_height : Z
}.

Record ComposedDocument := {
  doc_width : Z;
  doc_height : Z;
  doc_defs : list Symbol;
  doc_uses : list Use
}.

(** The blanks between an identifier and the attribute behind it; the
    records carry their number, which is layout only. *)
Definition blanks (n : nat) : text := repeat 32%N n.

Definition render_symbol (s : Symbol) : text :=
  str "    <symbol id=" ++ dq (sym_id s) ++ blanks (sym_gap s) ++ str "viewBox="
    ++ dq (sym_viewBox s) ++ str ">" ++ nl ++ sym_content s ++ nl
    ++ str "    </symbol>" ++ nl.

Definition render_use (u : Use) : text :=
  str "  <use href=" ++ dq (str "#" ++ use_href u) ++ blanks (use_gap u)
    ++ str "x=" ++ dq (str_of_Z (use_x u))
    ++ str " y=" ++ dq (str_of_Z (use_y u))
    ++ str " width=" ++ dq (str_of_Z (use_width u))
    ++ str " height=" ++ dq (str_of_Z (use_height u)) ++ str "/>" ++ nl.

Definition render (d : ComposedDocument) : text :=
  str "<svg xmlns=" ++ dq (str "http://www.w3.org/2000/svg")
    ++ str " width=" ++ dq (str_of_Z (doc_width d))
    ++ str " height=" ++ dq (str_of_Z (doc_height d)) ++ str ">" ++ nl
    ++ str "  <defs>" ++ nl
    ++ concat (map render_symbol (doc_defs d))
    ++ str "  </defs>" ++ nl
    ++ concat (map render_use (doc_uses d))
    ++ str "</svg>" ++ nl.

(** The document that section 4.4 asks for, from the values of the
    geometry step and of the extraction. *)
Definition composed (args : Namespace) (g : Geometry) (src : Sources)
  : ComposedDocument :=
  {| doc_width := fst (main_size args);
     doc_height := snd (main_size args);
     doc_defs :=
       [ {| sym_id := str "matrix"; sym_gap := 2;
            sym_viewBox := base_vb src; sym_content := base_inner src |};
         {| sym_id := str "telegram"; sym_gap := 1;
            sym_viewBox := badge_vb src; sym_content := badge_inner src |} ];
     doc_uses :=
       [ {| use_href := str "matrix"; use_gap := 3;
            use_x := main_x g; use_y := main_y g;
            use_width := main_w g; use_height := main_h g |};
         {| use_href := str "telegram"; use_gap := 1;
            use_x := badge_x g; use_y := badge_y g;
            use_width := fst (badge_size args);
            use_height := snd (badge_size args) |} ] |}.

(** Whether the item sequence [p] occurs somewhere in [s]. *)
Fixpoint occurs (p : list charclass) (s : text) : bool :=
  prefix_matches p s ||
  match s with
  | [] => false
  | _ :: r => occurs p r
  end.

(** An opening tag that the first pattern of [extract_inner] matches as
    a whole when [attrs] holds no [>], and a closing tag. *)
Definition opening (s v g : N) (attrs : text) : text :=
  [c_lt; s; v; g] ++ attrs ++ [c_gt].

Definition closing (s v g : N) : text := [c_lt; c_slash; s; v; g; c_gt].

(** Whether the code point [c] is absent from [s]. *)
Definition free_of (c : N) (s : text) : bool :=
  forallb (fun x => negb (N.eqb x c)) s.

Definition unquoted (s : text) : bool :=
  forallb (fun x => negb (is_quote x)) s.

(** ** Sample inputs *)

Definition one_file (path content : text) : world :=
  {| fs := {[ path := File content ]}; stdout := []; stderr := [] |}.

(** A command line with the three paths [base.svg], [badge.svg] and
    [out/combined.svg]. *)
Definition sample_args (size bsize : Z * Z) (offset : option (Z * Z))
    (scale : float) (png : bool) : Namespace :=
  {| base := str "base.svg"; badge := str "badge.svg";
     output := str "out/combined.svg";
     main_size := size; badge_size := bsize; badge_offset := offset;
     main_scale := scale; export_png := png |}.

Definition sample_world (tb tg : text) : world :=
  {| fs := <[str "base.svg" := File tb]> {[ str "badge.svg" := File tg ]};
     stdout := []; stderr := [] |}.

(** A machine on which every path can be written and no [inkscape]
    is installed. *)
Definition no_inkscape : Host :=
  {| writable := fun _ => true;
     subprocess := fun _ _ => NotStarted (str "No such file or directory: 'inkscape'");
     exn_str := fun e => match e with LaunchError msg => msg | _ => [] end |}.

(** The same machine with another behaviour of the subprocess. *)
Definition with_subprocess (host : Host)
    (sp : list text -> gmap text node -> completed) : Host :=
  {| writable := writable host; subprocess := sp; exn_str := exn_str host |}.

(** A machine on which nothing can be opened for writing. *)
Definition read_only : Host :=
  {| writable := fun _ => false;
     subprocess := subprocess no_inkscape;
     exn_str := exn_str no_inkscape |}.

(** A converter that writes the file named behind [--export-filename]
    and exits with status 0. *)
Definition working_inkscape : Host :=
  with_subprocess no_inkscape
    (fun cmd files =>
       match cmd !! 4%nat with
       | Some png => Exited 0 (<[png := File (str "PNG")]> files)
       | None => Exited 2 files
       end).

(** The longest number that [int] parses from the command line:
    4300 nines. *)
Definition longest_int : Z := 10 ^ max_str_digits - 1.

Definition f_half : float := Eval cbv in binary_normalize prec emax 1 (-1) false.
Definition f_one : float := Eval cbv in binary_normalize prec emax 1 0 false.
Definition f_two : float := Eval cbv in binary_normalize prec emax 2 0 false.
Definition f_minus_half : float := Eval cbv in binary_normalize prec emax (-1) (-1) false.

(** 2^1023, a little more than 8.98e307. *)
Definition f_two_pow_1023 : float := S754_finite false 4503599627370496 971.

(** The binary64 number nearest to 0.7, which is a little below it. *)
Definition f_seven_tenths : float := S754_finite false 6305039478318694 (-53).


Example strip_svg_tags_demo :
  strip_svg_tags (str "<SVG width='3'> <g/> </svg> ") = str "<g/>".
Proof. vm_compute. reflexivity. Qed.

Example find_viewBox_demo :
  find_viewBox (str "<svg viewBox='0 0 24 24'><g/></svg>") = Some (str "0 0 24 24").
Proof. vm_compute. reflexivity. Qed.

Example scaled_400_half : scaled 400 f_half = Return 200.
Proof. vm_compute. reflexivity. Qed.

(** The product is rounded to binary64 before [int] sees it: ten times
    the number nearest to 0.7 lies halfway between two floats and rounds
    to 7.0. *)
Example scaled_rounds_product :
  valid_binary prec emax f_seven_tenths = true
  /\ scaled 10 f_seven_tenths = Return 7.
Proof. split; vm_compute; reflexivity. Qed.

Example scaled_not_finite :
  scaled 24 S754_nan = Raise ValueError
  /\ scaled 24 (S754_infinity false) = Raise OverflowError
  /\ scaled (10 ^ 400) f_half = Raise OverflowError.
Proof. repeat split; vm_compute; reflexivity. Qed.

(** Every match goes, in any letter case, the long s included; a [<svg]
    that no [>] follows stays. *)
Example strip_svg_tags_every_match :
  strip_svg_tags ([c_lt; 383%N] ++ str "vg a>x<SVG>y<Svg z>w<svg")
  = str "xyw<svg".
Proof. vm_compute. reflexivity. Qed.

(** The opening tag ends at the first [>], also inside an attribute
    value. *)
Example strip_svg_tags_gt_in_attribute :
  strip_svg_tags (str "<svg id='a>b'><g/></svg>") = str "b'><g/>".
Proof. vm_compute. reflexivity. Qed.

(** Group 1 ends at the first quote character of either kind, and an
    empty value is no match. *)
Example find_viewBox_quotes :
  find_viewBox (str "<svg viewBox='a b" ++ [c_quot] ++ str " c'>") = Some (str "a b")
  /\ find_viewBox (str "<svg viewBox='' x='1'>") = None.
Proof. split; vm_compute; reflexivity. Qed.

Example str_of_Z_demo : str_of_Z (-12) = str "-12" /\ str_of_Z 0 = str "0".
Proof. split; vm_compute; reflexivity. Qed.

Example splitext_demo :
  splitext (str "out/combined.svg") = (str "out/combined", str ".svg")
  /\ splitext (str "a.b/.hidden") = (str "a.b/.hidden", [])
  /\ splitext (str "..x.y") = (str "..x", str ".y")
  /\ splitext (str "a/...") = (str "a/...", []).
Proof. repeat split; vm_compute; reflexivity. Qed.

(** * Properties *)

(** ** Scanning lemmas *)

Lemma prefix_matches_app_l (p : list charclass) (a y : text) :
  prefix_matches p a = true -> prefix_matches p (a ++ y) = true.
Proof.
  revert a; induction p as [|f p IH]; intros [|c a]; simpl; try easy.
  intros [Hc Hp]%andb_prop. rewrite Hc. simpl. auto.
Qed.

(** A match that starts in [a] cannot run into a following text whose
    first code point [z] is rejected by every item of the pattern
    behind the first one. *)
Lemma prefix_matches_reject (p : list charclass) (a : text) (z : N) (r y : text) :
  Forall (fun f => f z = false) p ->
  prefix_matches p (a ++ z :: r) = true -> prefix_matches p (a ++ y) = true.
Proof.
  revert a; induction p as [|f p IH]; intros a Hrej; [easy|].
  destruct a as [|c a]; simpl.
  - inversion Hrej as [|? ? Hz]; subst. rewrite Hz. discriminate.
  - intros [Hc Hp]%andb_prop. rewrite Hc. simpl.
    inversion Hrej; subst. eauto.
Qed.

Lemma prefix_matches_straddle (p : list charclass) (a : text) (z : N) (r y : text) :
  a <> [] -> Forall (fun f => f z = false) (tl p) ->
  prefix_matches p (a ++ z :: r) = true -> prefix_matches p (a ++ y) = true.
Proof.
  destruct p as [|f p]; [easy|]. destruct a as [|c a]; [easy|].
  simpl. intros _ Hrej [Hc Hp]%andb_prop. rewrite Hc. simpl.
  eapply prefix_matches_reject; eauto.
Qed.

Lemma not_occurs_suffix (p : list charclass) (a1 a2 : text) :
  occurs p (a1 ++ a2) = false -> prefix_matches p a2 = false.
Proof.
  induction a1 as [|c a1 IH]; simpl.
  - destruct a2; simpl; intros [H _]%orb_false_elim; exact H.
  - intros [_ H]%orb_false_elim. auto.
Qed.

Lemma re_sub_del_skip (m : text -> option nat) (t s : text) :
  re_sub_del m (length t) (t ++ s) = re_sub_del m 0 s.
Proof. induction t as [|c t IH]; simpl; auto. Qed.

Lemma re_sub_del_match (m : text -> option nat) (t s : text) :
  t <> [] -> m (t ++ s) = Some (length t) ->
  re_sub_del m 0 (t ++ s) = re_sub_del m 0 s.
Proof.
  destruct t as [|c t]; [easy|]. intros _ H. simpl in *. rewrite H.
  apply re_sub_del_skip.
Qed.

Lemma re_sub_del_keep (m : text -> option nat) (a s : text) :
  (forall a1 a2, a = a1 ++ a2 -> a2 <> [] -> m (a2 ++ s) = None) ->
  re_sub_del m 0 (a ++ s) = a ++ re_sub_del m 0 s.
Proof.
  induction a as [|c a IH]; intros H; [reflexivity|].
  assert (H0 : m (c :: a ++ s) = None) by (apply (H [] (c :: a)); easy).
  simpl. rewrite H0.
  f_equal. apply IH. intros a1 a2 -> Hne. apply (H (c :: a1) a2); auto.
Qed.

Lemma re_search_skip {A : Type} (m : text -> option A) (a s : text) :
  (forall a1 a2, a = a1 ++ a2 -> a2 <> [] -> m (a2 ++ s) = None) ->
  re_search m (a ++ s) = re_search m s.
Proof.
  induction a as [|c a IH]; intros H; [reflexivity|].
  assert (H0 : m (c :: a ++ s) = None) by (apply (H [] (c :: a)); easy).
  simpl. rewrite H0.
  apply IH. intros a1 a2 -> Hne. apply (H (c :: a1) a2); auto.
Qed.

Lemma re_search_none {A : Type} (m : text -> option A) (s : text) :
  (forall a1 a2, s = a1 ++ a2 -> m a2 = None) -> re_search m s = None.
Proof.
  induction s as [|c s IH]; intros H; simpl.
  - now rewrite (H [] [] eq_refl).
  - rewrite (H [] (c :: s) eq_refl). apply IH.
    intros a1 a2 ->. apply (H (c :: a1) a2). reflexivity.
Qed.

Lemma match_open_tag_none (s : text) :
  prefix_matches pat_open s = false -> match_open_tag s = None.
Proof. unfold match_open_tag. now intros ->. Qed.

Lemma match_close_tag_none (s : text) :
  prefix_matches pat_close s = false -> match_close_tag s = None.
Proof. unfold match_close_tag. now intros ->. Qed.

Lemma match_viewBox_none (s : text) :
  prefix_matches pat_viewBox s = false -> match_viewBox s = None.
Proof. unfold match_viewBox. now intros ->. Qed.

Lemma run_to_gt_first (attrs rest : text) :
  free_of c_gt attrs = true ->
  run_to_gt (attrs ++ c_gt :: rest) = Some (S (length attrs)).
Proof.
  induction attrs as [|c attrs IH]; simpl.
  - reflexivity.
  - intros [Hc Hr]%andb_prop. apply negb_true_iff in Hc. rewrite Hc.
    now rewrite IH.
Qed.

Lemma span_unquoted_run (v : text) (q : N) (rest : text) :
  unquoted v = true -> is_quote q = true ->
  span_unquoted (v ++ q :: rest) = (v, q :: rest).
Proof.
  intros Hv Hq. induction v as [|c v IH]; simpl in *.
  - now rewrite Hq.
  - apply andb_prop in Hv as [Hc Hv]. apply negb_true_iff in Hc.
    now rewrite Hc, IH.
Qed.

(** ** Reading a source file *)

Lemma extract_inner_file (path : text) (w : world) (t : text) :
  fs w !! path = Some (File t) ->
  extract_inner path w = (w, Return (strip_svg_tags t)).
Proof.
  intros H. unfold extract_inner, bind, try_except, open_read. now rewrite H.
Qed.

Lemma get_viewbox_file (path : text) (w : world) (t : text) :
  fs w !! path = Some (File t) ->
  get_viewbox path w = (w, Return (find_viewBox t)).
Proof.
  intros H. unfold get_viewbox, bind, open_read. now rewrite H.
Qed.

Lemma extract_inner_returns (path : text) (w w' : world) (r : text) :
  extract_inner path w = (w', Return r) ->
  w' = w /\ exists t, fs w !! path = Some (File t) /\ r = strip_svg_tags t.
Proof.
  unfold extract_inner, bind, try_except, open_read, sys_exit, raise, ret.
  destruct (fs w !! path) as [[t| |]|]; simpl; intros H; inversion H; subst.
  split; [reflexivity|]. now exists t.
Qed.

(** ** Stripping the root tags *)

Lemma lit_lt_not_s (c : N) : is_s c = true -> lit c_lt c = false.
Proof.
  unfold lit. destruct (N.eqb_spec c_lt c) as [<-|]; [discriminate|reflexivity].
Qed.

Lemma lit_lt_not_v (c : N) : is_v c = true -> lit c_lt c = false.
Proof.
  unfold lit. destruct (N.eqb_spec c_lt c) as [<-|]; [discriminate|reflexivity].
Qed.

Lemma lit_lt_not_g (c : N) : is_g c = true -> lit c_lt c = false.
Proof.
  unfold lit. destruct (N.eqb_spec c_lt c) as [<-|]; [discriminate|reflexivity].
Qed.

Lemma open_items_reject_lt : Forall (fun f : charclass => f c_lt = false) (tl pat_open).
Proof. repeat constructor. Qed.

Lemma close_items_reject_lt : Forall (fun f : charclass => f c_lt = false) (tl pat_close).
Proof. repeat constructor. Qed.

Lemma viewBox_items_reject_v :
  Forall (fun f : charclass => f 118%N = false) (tl pat_viewBox).
Proof. repeat constructor. Qed.

Section SingleRoot.

Variables (pre attrs inner post : text) (s v g s' v' g' : N).

Hypothesis Hs : is_s s = true.
Hypothesis Hv : is_v v = true.
Hypothesis Hg : is_g g = true.
Hypothesis Hs' : is_s s' = true.
Hypothesis Hv' : is_v v' = true.
Hypothesis Hg' : is_g g' = true.
Hypothesis Hattrs : free_of c_gt attrs = true.
Hypothesis Hopen : occurs pat_open (pre ++ inner ++ post) = false.
Hypothesis Hclose : occurs pat_close (pre ++ inner ++ post) = false.

Local Abbreviation otag := (opening s v g attrs).
Local Abbreviation ctag := (closing s' v' g').

Lemma opening_matches (rest : text) :
  match_open_tag (otag ++ rest) = Some (length otag).
Proof.
  unfold match_open_tag, opening. simpl. rewrite Hs, Hv, Hg. simpl.
  rewrite <- app_assoc. simpl. rewrite drop_0.
  rewrite run_to_gt_first by assumption.
  simpl. rewrite length_app. simpl. do 5 f_equal. lia.
Qed.

Lemma closing_matches (rest : text) :
  match_close_tag (ctag ++ rest) = Some (length ctag).
Proof.
  unfold match_close_tag, closing. simpl. now rewrite Hs', Hv', Hg'.
Qed.

Lemma closing_kept (rest : text) :
  re_sub_del match_open_tag 0 (ctag ++ rest)
  = ctag ++ re_sub_del match_open_tag 0 rest.
Proof.
  apply re_sub_del_keep. intros a1 a2 E Hne. apply match_open_tag_none.
  unfold closing in E.
  destruct a1 as [|? [|? [|? [|? [|? [|? a1]]]]]]; simpl in E;
    inversion E; subst; unfold pat_open; cbn [app prefix_matches];
    try reflexivity.
  - now rewrite lit_lt_not_s.
  - now rewrite lit_lt_not_v.
  - now rewrite lit_lt_not_g.
  - destruct a1; [|discriminate]. simpl in *. congruence.
Qed.

Lemma first_pass :
  re_sub_del match_open_tag 0 (pre ++ otag ++ inner ++ ctag ++ post)
  = pre ++ inner ++ ctag ++ post.
Proof.
  rewrite re_sub_del_keep.
  2:{ intros a1 a2 -> Hne. apply match_open_tag_none.
      destruct (prefix_matches pat_open (a2 ++ otag ++ inner ++ ctag ++ post))
        eqn:E; [|reflexivity].
      exfalso. apply (prefix_matches_straddle _ _ _ _ (inner ++ post)) in E;
        auto using open_items_reject_lt.
      rewrite (not_occurs_suffix pat_open a1 (a2 ++ inner ++ post)) in E;
        [discriminate|]. now rewrite app_assoc. }
  f_equal. rewrite re_sub_del_match; [|discriminate|apply opening_matches].
  rewrite re_sub_del_keep.
  2:{ intros a1 a2 -> Hne. apply match_open_tag_none.
      destruct (prefix_matches pat_open (a2 ++ ctag ++ post)) eqn:E;
        [|reflexivity].
      exfalso. apply (prefix_matches_straddle _ _ _ _ post) in E;
        auto using open_items_reject_lt.
      rewrite (not_occurs_suffix pat_open (pre ++ a1) (a2 ++ post)) in E;
        [discriminate|]. now rewrite <- !app_assoc in *. }
  f_equal. rewrite closing_kept. f_equal.
  rewrite <- (app_nil_r post) at 1. rewrite re_sub_del_keep.
  - simpl. apply app_nil_r.
  - intros a1 a2 -> Hne. apply match_open_tag_none. rewrite app_nil_r.
    apply (not_occurs_suffix pat_open (pre ++ inner ++ a1)).
    now rewrite <- !app_assoc.
Qed.

Lemma second_pass :
  re_sub_del match_close_tag 0 (pre ++ inner ++ ctag ++ post)
  = pre ++ inner ++ post.
Proof.
  rewrite (app_assoc pre inner). rewrite re_sub_del_keep.
  2:{ intros a1 a2 E Hne. apply match_close_tag_none.
      destruct (prefix_matches pat_close (a2 ++ ctag ++ post)) eqn:E';
        [|reflexivity].
      exfalso. apply (prefix_matches_straddle _ _ _ _ post) in E';
        auto using close_items_reject_lt.
      rewrite (not_occurs_suffix pat_close a1 (a2 ++ post)) in E';
        [discriminate|]. rewrite app_assoc, <- E. now rewrite <- app_assoc. }
  rewrite <- app_assoc. do 2 f_equal.
  rewrite re_sub_del_match; [|discriminate|apply closing_matches].
  rewrite <- (app_nil_r post) at 1. rewrite re_sub_del_keep.
  - simpl. apply app_nil_r.
  - intros a1 a2 -> Hne. apply match_close_tag_none. rewrite app_nil_r.
    apply (not_occurs_suffix pat_close (pre ++ inner ++ a1)).
    now rewrite <- !app_assoc.
Qed.

Lemma strip_svg_tags_single_root :
  strip_svg_tags (pre ++ otag ++ inner ++ ctag ++ post)
  = strip (pre ++ inner ++ post).
Proof. unfold strip_svg_tags. now rewrite first_pass, second_pass. Qed.

End SingleRoot.

(** C5, as amended.  When the text read from the file is a leading part,
    one opening tag [<svg ...>] (any letter case, attributes free of
    [>]), inner markup, one closing tag [</svg>] (any letter case) and a
    trailing part, and the leading part, the inner markup and the
    trailing part put together hold no further [<svg] and no further
    [</svg>] in any letter case, then [extract_inner] returns that text
    without the two tags, stripped of surrounding whitespace and
    otherwise unchanged. *)
Theorem extract_inner_single_root
    (w : world) (path pre attrs inner post : text) (s v g s' v' g' : N) :
  is_s s = true -> is_v v = true -> is_g g = true ->
  is_s s' = true -> is_v v' = true -> is_g g' = true ->
  free_of c_gt attrs = true ->
  occurs pat_open (pre ++ inner ++ post) = false ->
  occurs pat_close (pre ++ inner ++ post) = false ->
  fs w !! path
    = Some (File (pre ++ opening s v g attrs ++ inner
                      ++ closing s' v' g' ++ post)) ->
  extract_inner path w = (w, Return (strip (pre ++ inner ++ post))).
Proof.
  intros Hs Hv Hg Hs' Hv' Hg' Hattrs Hopen Hclose Hfile.
  rewrite (extract_inner_file _ _ _ Hfile). do 2 f_equal.
  now apply strip_svg_tags_single_root.
Qed.

Lemma extract_inner_single_root_witness :
  let w := one_file (str "icon.svg")
             (str "<?xml version='1.0'?> <SVG width='24' height='24'> <g><path d='M0 0'/></g> </svg> ") in
  extract_inner (str "icon.svg") w
  = (w, Return (str "<?xml version='1.0'?>  <g><path d='M0 0'/></g>")).
Proof.
  intros w.
  apply (extract_inner_single_root w (str "icon.svg")
           (str "<?xml version='1.0'?> ") (str " width='24' height='24'")
           (str " <g><path d='M0 0'/></g> ") (str " ")
           83%N 86%N 71%N 115%N 118%N 103%N); reflexivity.
Defined.

(** C5, as stated, fails: with arbitrary inner markup the tags of a
    nested [svg] element are removed as well. *)
Lemma extract_inner_strips_nested_svg :
  ~ (forall (w : world) (path attrs inner : text),
       free_of c_gt attrs = true ->
       fs w !! path
         = Some (File (str "<svg" ++ attrs ++ str ">" ++ inner ++ str "</svg>")) ->
       extract_inner path w = (w, Return (strip inner))).
Proof.
  intros H.
  specialize (H (one_file (str "a.svg") (str "<svg><g><svg x='1'><rect/></svg></g></svg>"))
                (str "a.svg") [] (str "<g><svg x='1'><rect/></svg></g>")
                eq_refl eq_refl).
  vm_compute in H. discriminate H.
Qed.

(** ** The coordinate box *)

Lemma re_search_here {A : Type} (m : text -> option A) (s : text) (g : A) :
  m s = Some g -> re_search m s = Some g.
Proof. intros H. destruct s; simpl; now rewrite H. Qed.

Lemma match_viewBox_here (v rest : text) (q q' : N) :
  is_quote q = true -> is_quote q' = true -> v <> [] -> unquoted v = true ->
  match_viewBox (str "viewBox=" ++ q :: v ++ q' :: rest) = Some v.
Proof.
  intros Hq Hq' Hne Hv. unfold match_viewBox.
  change (prefix_matches pat_viewBox (str "viewBox=" ++ q :: v ++ q' :: rest))
    with true.
  change (drop 8 (str "viewBox=" ++ q :: v ++ q' :: rest))
    with (q :: v ++ q' :: rest).
  cbv iota. rewrite Hq, span_unquoted_run by assumption.
  destruct v; [easy|]. now rewrite Hq'.
Qed.

Lemma find_viewBox_first (pre v rest : text) (q q' : N) :
  occurs pat_viewBox pre = false ->
  is_quote q = true -> is_quote q' = true -> v <> [] -> unquoted v = true ->
  find_viewBox (pre ++ str "viewBox=" ++ q :: v ++ q' :: rest) = Some v.
Proof.
  intros Hpre Hq Hq' Hne Hv. unfold find_viewBox.
  rewrite re_search_skip.
  - apply re_search_here. now apply match_viewBox_here.
  - intros a1 a2 -> Ha2. apply match_viewBox_none.
    destruct (prefix_matches pat_viewBox
                (a2 ++ str "viewBox=" ++ q :: v ++ q' :: rest)) eqn:E;
      [|reflexivity].
    exfalso.
    change (str "viewBox=" ++ q :: v ++ q' :: rest)
      with (118%N :: (str "iewBox=" ++ q :: v ++ q' :: rest)) in E.
    apply (prefix_matches_straddle _ _ _ _ []) in E;
      auto using viewBox_items_reject_v.
    rewrite app_nil_r in E.
    now rewrite (not_occurs_suffix pat_viewBox a1 a2) in E.
Qed.

Lemma find_viewBox_absent (t : text) :
  occurs pat_viewBox t = false -> find_viewBox t = None.
Proof.
  intros H. apply re_search_none. intros a1 a2 ->.
  apply match_viewBox_none. now apply (not_occurs_suffix _ a1).
Qed.

(** C10.  [get_viewbox] returns group 1 of the first place of the text
    where the exactly spelled [viewBox=] is followed by a quoted,
    non-empty value, wherever in the text that is; a text without the
    exactly spelled [viewBox=] gives [None], as the lower-case and
    upper-case spellings show, while the tag stripping of
    [extract_inner] accepts any letter case. *)
Theorem get_viewbox_case_sensitive_first_match :
  (forall (w : world) (path pre v rest : text) (q q' : N),
      occurs pat_viewBox pre = false ->
      is_quote q = true -> is_quote q' = true ->
      v <> [] -> unquoted v = true ->
      fs w !! path = Some (File (pre ++ str "viewBox=" ++ q :: v ++ q' :: rest)) ->
      get_viewbox path w = (w, Return (Some v)))
  /\ (forall (w : world) (path t : text),
        occurs pat_viewBox t = false ->
        fs w !! path = Some (File t) ->
        get_viewbox path w = (w, Return None))
  /\ find_viewBox (str "<svg width='5'><g viewBox='1 2 3 4'/></svg>")
     = Some (str "1 2 3 4")
  /\ find_viewBox (str "<svg viewbox='0 0 24 24'><g/></svg>") = None
  /\ find_viewBox (str "<svg VIEWBOX='0 0 24 24'><g/></svg>") = None
  /\ strip_svg_tags (str "<SVG viewbox='0 0 24 24'><g/></Svg>") = str "<g/>".
Proof.
  split; [|split].
  - intros w path pre v rest q q' Hpre Hq Hq' Hne Hv Hfile.
    rewrite (get_viewbox_file _ _ _ Hfile).
    now rewrite find_viewBox_first.
  - intros w path t Ht Hfile.
    rewrite (get_viewbox_file _ _ _ Hfile). now rewrite find_viewBox_absent.
  - repeat split; vm_compute; reflexivity.
Qed.

Lemma get_viewbox_case_sensitive_first_match_witness :
  let w := one_file (str "icon.svg")
             (str "<svg viewbox='9 9 9 9'><g viewBox='1 2 3 4'/><g viewBox='5 6 7 8'/></svg>") in
  get_viewbox (str "icon.svg") w = (w, Return (Some (str "1 2 3 4")))
  /\ get_viewbox (str "icon.svg") (one_file (str "icon.svg") (str "<svg viewbox='9 9 9 9'/>"))
     = (one_file (str "icon.svg") (str "<svg viewbox='9 9 9 9'/>"), Return None).
Proof.
  intros w. split.
  - apply (proj1 get_viewbox_case_sensitive_first_match w (str "icon.svg")
             (str "<svg viewbox='9 9 9 9'><g ") (str "1 2 3 4")
             (str "/><g viewBox='5 6 7 8'/></svg>") c_apos c_apos);
      try reflexivity. discriminate.
  - apply (proj1 (proj2 get_viewbox_case_sensitive_first_match) _ _
             (str "<svg viewbox='9 9 9 9'/>")); reflexivity.
Defined.

(** ** The geometry step *)

Lemma geometry_of_scaled (args : Namespace) (mw mh : Z) :
  scaled (fst (main_size args)) (main_scale args) = Return mw ->
  scaled (snd (main_size args)) (main_scale args) = Return mh ->
  geometry args
  = Return {| main_w := mw; main_h := mh;
              main_x := (fst (main_size args) - mw) / 2;
              main_y := (snd (main_size args) - mh) / 2;
              badge_x := fst (badge_position args);
              badge_y := snd (badge_position args) |}.
Proof.
  unfold geometry. destruct (main_size args) as [bw bh]. simpl.
  intros -> ->. simpl. now destruct (badge_position args).
Qed.

Lemma geometry_returns (args : Namespace) (g : Geometry) :
  geometry args = Return g ->
  scaled (fst (main_size args)) (main_scale args) = Return (main_w g)
  /\ scaled (snd (main_size args)) (main_scale args) = Return (main_h g)
  /\ main_x g = (fst (main_size args) - main_w g) / 2
  /\ main_y g = (snd (main_size args) - main_h g) / 2
  /\ (badge_x g, badge_y g) = badge_position args.
Proof.
  unfold geometry. destruct (main_size args) as [bw bh]. simpl.
  destruct (scaled bw (main_scale args)) as [mw|]; [|discriminate].
  destruct (scaled bh (main_scale args)) as [mh|]; [|discriminate].
  simpl. destruct (badge_position args). intros [= <-]. simpl. auto.
Qed.

Lemma scaled_raises (n : Z) (x : float) (e : exn) :
  scaled n x = Raise e -> e = ValueError \/ e = OverflowError.
Proof.
  unfold scaled, int_mul_float, float_of_int.
  destruct (binary_normalize prec emax n 0 false) as [? | ? | | ? ? ?];
    simpl; try (intros [= <-]; auto);
    match goal with
    | |- int_of_float ?f = _ -> _ => destruct f; simpl; intros [= <-]; auto
    end.
Qed.

Lemma geometry_raises (args : Namespace) (e : exn) :
  geometry args = Raise e -> e = ValueError \/ e = OverflowError.
Proof.
  unfold geometry. destruct (main_size args) as [bw bh].
  destruct (scaled bw (main_scale args)) as [mw|e1] eqn:E1; simpl.
  - destruct (scaled bh (main_scale args)) as [mh|e2] eqn:E2; simpl.
    + destruct (badge_position args). discriminate.
    + intros [= <-]. eapply scaled_raises; eauto.
  - intros [= <-]. eapply scaled_raises; eauto.
Qed.

Lemma floor_half_div (n : Z) : floor_half n = n / 2.
Proof. unfold floor_half. simpl. now rewrite Z.mul_1_r. Qed.

Lemma Zpos_pow2 (e : Z) : e < 0 -> Z.pos (2 ^ Z.to_pos (- e)) = 2 ^ (- e).
Proof.
  intros He. rewrite Pos2Z.inj_pow. f_equal. apply Z2Pos.id. lia.
Qed.

Lemma shiftl_floor (m : positive) (e : Z) :
  Z.shiftl (Z.pos m) e = Qfloor (Q_of_float (S754_finite false m e)).
Proof.
  unfold Q_of_float. destruct (Z.leb_spec 0 e) as [He|He].
  - rewrite Qfloor_Z. now apply Z.shiftl_mul_pow2.
  - unfold Qfloor. rewrite Zpos_pow2 by assumption.
    apply Z.shiftl_div_pow2. lia.
Qed.

Lemma shiftl_ceiling (m : positive) (e : Z) :
  - Z.shiftl (Z.pos m) e = Qceiling (Q_of_float (S754_finite true m e)).
Proof.
  rewrite shiftl_floor. unfold Qceiling. f_equal.
  apply Qfloor_comp. unfold Q_of_float.
  destruct (0 <=? e); symmetry; apply Qopp_involutive.
Qed.

(** [int(x)] is the floor of a finite [x] that is not negative and the
    ceiling of a negative one. *)
Lemma int_of_float_floor (x : float) :
  is_finite x = true -> is_negative x = false ->
  int_of_float x = Return (Qfloor (Q_of_float x)).
Proof.
  destruct x as [? | ? | | [|] m e]; simpl; try discriminate; intros _ _.
  - reflexivity.
  - f_equal. apply shiftl_floor.
Qed.

Lemma int_of_float_ceiling (x : float) :
  is_negative x = true ->
  int_of_float x = Return (Qceiling (Q_of_float x)).
Proof.
  destruct x as [? | ? | | [|] m e]; simpl; try discriminate; intros _.
  f_equal. apply shiftl_ceiling.
Qed.

Lemma scaled_of_product (n : Z) (x fw : float) :
  int_mul_float n x = Return fw -> scaled n x = int_of_float fw.
Proof. unfold scaled. now intros ->. Qed.

Lemma int_of_float_finite (x : float) :
  is_finite x = true ->
  int_of_float x
  = Return (if is_negative x then Qceiling (Q_of_float x)
            else Qfloor (Q_of_float x)).
Proof.
  intros Hx. destruct (is_negative x) eqn:E.
  - now apply int_of_float_ceiling.
  - now apply int_of_float_floor.
Qed.

Lemma int_of_float_not_finite (x : float) :
  is_finite x = false -> exists e, int_of_float x = Raise e.
Proof. destruct x; simpl; try discriminate; eauto. Qed.

(** C2, as amended.  Whenever the products [canvasWidth * scale] and
    [canvasHeight * scale], computed in binary64, are finite, the
    geometry step returns: the width and the height are these products
    truncated towards zero, which is their floor when they are not
    negative and their ceiling when they are negative; x and y are the
    floors of half the remaining space; nothing is clamped.  When one
    of the two products is not finite, or cannot be computed because
    the canvas size is beyond the range of binary64, the geometry step
    raises [ValueError] or [OverflowError] and gives no placement, as
    for main-size (1,10) and main-scale 2^1023, where only the height
    product is infinite.  For main-size (400,400) and main-scale 0.5
    the base placement is x=100, y=100, width=200, height=200; for
    main-size (24,24) and main-scale 2.0 it is x=-12, y=-12, width=48,
    height=48. *)
Theorem base_placement_scaled_centered :
  (forall (args : Namespace) (fw fh : float),
      int_mul_float (fst (main_size args)) (main_scale args) = Return fw ->
      int_mul_float (snd (main_size args)) (main_scale args) = Return fh ->
      is_finite fw = true -> is_finite fh = true ->
      exists g, geometry args = Return g
        /\ main_w g = (if is_negative fw then Qceiling (Q_of_float fw)
                       else Qfloor (Q_of_float fw))
        /\ main_h g = (if is_negative fh then Qceiling (Q_of_float fh)
                       else Qfloor (Q_of_float fh))
        /\ main_x g = floor_half (fst (main_size args) - main_w g)
        /\ main_y g = floor_half (snd (main_size args) - main_h g))
  /\ (forall (args : Namespace) (fw fh : float),
        int_mul_float (fst (main_size args)) (main_scale args) = Return fw ->
        int_mul_float (snd (main_size args)) (main_scale args) = Return fh ->
        is_finite fw = false \/ is_finite fh = false ->
        exists e, geometry args = Raise e
                  /\ (e = ValueError \/ e = OverflowError))
  /\ (forall (args : Namespace) (e : exn),
        int_mul_float (fst (main_size args)) (main_scale args) = Raise e
        \/ int_mul_float (snd (main_size args)) (main_scale args) = Raise e ->
        exists e', geometry args = Raise e'
                   /\ (e' = ValueError \/ e' = OverflowError))
  /\ geometry (sample_args (1, 10) (6, 6) None f_two_pow_1023 false)
     = Raise OverflowError
  /\ geometry (sample_args (400, 400) (6, 6) None f_half false)
     = Return {| main_w := 200; main_h := 200; main_x := 100; main_y := 100;
                 badge_x := 394; badge_y := 394 |}
  /\ geometry (sample_args (24, 24) (6, 6) None f_two false)
     = Return {| main_w := 48; main_h := 48; main_x := -12; main_y := -12;
                 badge_x := 18; badge_y := 18 |}.
Proof.
  split; [|split; [|split; [|split; [|split]]]].
  - intros args fw fh Hw Hh Fw Fh.
    eexists. split.
    + apply geometry_of_scaled.
      * rewrite (scaled_of_product _ _ _ Hw). now apply int_of_float_finite.
      * rewrite (scaled_of_product _ _ _ Hh). now apply int_of_float_finite.
    + simpl. now rewrite !floor_half_div.
  - intros args fw fh Hw Hh Hnf.
    destruct (geometry args) as [g|e] eqn:Hg.
    + exfalso. destruct (geometry_returns _ _ Hg) as (Sw & Sh & _).
      rewrite (scaled_of_product _ _ _ Hw) in Sw.
      rewrite (scaled_of_product _ _ _ Hh) in Sh.
      destruct Hnf as [Hnf | Hnf];
        destruct (int_of_float_not_finite _ Hnf) as [e He]; congruence.
    + exists e. split; [reflexivity|]. now apply (geometry_raises args).
  - intros args e He.
    destruct (geometry args) as [g|e'] eqn:Hg.
    + exfalso. destruct (geometry_returns _ _ Hg) as (Sw & Sh & _).
      unfold scaled in Sw, Sh. destruct He as [He | He]; rewrite He in *;
        discriminate.
    + exists e'. split; [reflexivity|]. now apply (geometry_raises args).
  - vm_compute. reflexivity.
  - vm_compute. reflexivity.
  - vm_compute. reflexivity.
Qed.

Lemma base_placement_scaled_centered_witness :
  exists g, geometry (sample_args (400, 400) (100, 100) None f_half false) = Return g
    /\ main_w g = 200 /\ main_h g = 200 /\ main_x g = 100 /\ main_y g = 100.
Proof.
  destruct (proj1 base_placement_scaled_centered
              (sample_args (400, 400) (100, 100) None f_half false)
              (S754_finite false 7036874417766400 (-45))
              (S754_finite false 7036874417766400 (-45))
              eq_refl eq_refl eq_refl eq_refl) as (g & Hg & Hw & Hh & Hx & Hy).
  exists g. split; [exact Hg|].
  rewrite Hx, Hy, Hw, Hh. repeat split; reflexivity.
Defined.

(** C2, as stated, fails: for main-size (3,3) and main-scale -0.5 the
    product is -1.5, the width is [int(-1.5) = -1] and the floor is -2. *)
Lemma base_width_is_not_floor :
  ~ (forall (args : Namespace) (g : Geometry) (fw : float),
       geometry args = Return g ->
       int_mul_float (fst (main_size args)) (main_scale args) = Return fw ->
       main_w g = Qfloor (Q_of_float fw)).
Proof.
  intros H.
  specialize (H (sample_args (3, 3) (6, 6) None f_minus_half false)
                {| main_w := -1; main_h := -1; main_x := 2; main_y := 2;
                   badge_x := -3; badge_y := -3 |}
                (S754_finite true 6755399441055744 (-52))).
  assert (E : (-1 = -2)%Z).
  { apply H; vm_compute; reflexivity. }
  discriminate E.
Qed.

(** C3.  Without [--badge-offset], whenever the two scaled sizes of
    lines 63-64 are computed, the geometry step returns with the badge
    at [canvasWidth - badgeWidth], [canvasHeight - badgeHeight]. *)
Theorem badge_default_bottom_right (args : Namespace) (mw mh : Z) :
  badge_offset args = None ->
  scaled (fst (main_size args)) (main_scale args) = Return mw ->
  scaled (snd (main_size args)) (main_scale args) = Return mh ->
  exists g, geometry args = Return g
    /\ badge_x g = fst (main_size args) - fst (badge_size args)
    /\ badge_y g = snd (main_size args) - snd (badge_size args).
Proof.
  intros Hoff Hw Hh. eexists. split.
  - apply geometry_of_scaled; eassumption.
  - unfold badge_position. rewrite Hoff.
    destruct (main_size args), (badge_size args). simpl. auto.
Qed.

Lemma badge_default_bottom_right_witness :
  exists g, geometry (sample_args (24, 24) (6, 6) None f_one false) = Return g
    /\ badge_x g = 18 /\ badge_y g = 18.
Proof.
  exact (badge_default_bottom_right
           (sample_args (24, 24) (6, 6) None f_one false) 24 24
           eq_refl eq_refl eq_refl).
Defined.

(** C4.  With [--badge-offset x y], whenever the two scaled sizes of
    lines 63-64 are computed, the geometry step returns with the badge
    at (x, y) whatever the badge size and the canvas size are, and the
    [<use>] of the badge in the document carries these two numbers. *)
Theorem badge_offset_verbatim (args : Namespace) (x y mw mh : Z) (src : Sources) :
  badge_offset args = Some (x, y) ->
  scaled (fst (main_size args)) (main_scale args) = Return mw ->
  scaled (snd (main_size args)) (main_scale args) = Return mh ->
  exists g, geometry args = Return g
    /\ badge_x g = x /\ badge_y g = y
    /\ document_chunks args g src !! 6%nat
       = Some (str "  <use href=" ++ dq (str "#telegram")
                 ++ str " x=" ++ dq (str_of_Z x) ++ str " y=" ++ dq (str_of_Z y)
                 ++ str " width=" ++ dq (str_of_Z (fst (badge_size args)))
                 ++ str " height=" ++ dq (str_of_Z (snd (badge_size args)))
                 ++ str "/>" ++ nl).
Proof.
  intros Hoff Hw Hh. eexists.
  split; [apply geometry_of_scaled; eassumption|].
  unfold badge_position, document_chunks, document_head, use_badge.
  rewrite Hoff.
  destruct (main_size args), (badge_size args). simpl. auto.
Qed.

Lemma badge_offset_verbatim_witness :
  exists g, geometry (sample_args (24, 24) (6, 6) (Some (2, 2)) f_one false) = Return g
    /\ badge_x g = 2 /\ badge_y g = 2
    /\ document_chunks (sample_args (24, 24) (6, 6) (Some (2, 2)) f_one false) g
         (sources_of (sample_args (24, 24) (6, 6) (Some (2, 2)) f_one false) g [] [])
         !! 6%nat
       = Some (str "  <use href=" ++ dq (str "#telegram")
                 ++ str " x=" ++ dq (str "2") ++ str " y=" ++ dq (str "2")
                 ++ str " width=" ++ dq (str "6") ++ str " height=" ++ dq (str "6")
                 ++ str "/>" ++ nl).
Proof.
  destruct (badge_offset_verbatim
              (sample_args (24, 24) (6, 6) (Some (2, 2)) f_one false) 2 2 24 24
              (sources_of (sample_args (24, 24) (6, 6) (Some (2, 2)) f_one false)
                 {| main_w := 24; main_h := 24; main_x := 0; main_y := 0;
                    badge_x := 2; badge_y := 2 |} [] [])
              eq_refl eq_refl eq_refl) as (g & Hg & Hx & Hy & Hdoc).
  exists g. repeat split; assumption.
Defined.

(** ** The blocks of [main] *)

Lemma read_sources_outcome (args : Namespace) (g : Geometry) (w : world) :
  read_sources args g w =
  match fs w !! base args with
  | Some (File tb) =>
      match fs w !! badge args with
      | Some (File tg) => (w, Return (sources_of args g tb tg))
      | Some Undecodable => (w, Raise (UnicodeDecodeError (badge args)))
      | _ => (w, Raise (SystemExit (inl (not_found_msg (badge args)))))
      end
  | Some Undecodable => (w, Raise (UnicodeDecodeError (base args)))
  | _ => (w, Raise (SystemExit (inl (not_found_msg (base args)))))
  end.
Proof.
  unfold read_sources, sources_of. destruct (badge_size args) as [bw bh].
  unfold bind, extract_inner, get_viewbox, bind, try_except, open_read,
    sys_exit, raise, ret.
  destruct (fs w !! base args) as [[tb| |]|] eqn:Hb; simpl; try reflexivity.
  destruct (fs w !! badge args) as [[tg| |]|] eqn:Hd; simpl;
    rewrite ?Hb; simpl; rewrite ?Hd; reflexivity.
Qed.

Lemma world_eta (w : world) :
  {| fs := fs w; stdout := stdout w; stderr := stderr w |} = w.
Proof. now destruct w. Qed.

Section Blocks.

Variable host : Host.

Lemma write_each_file (path : text) (chunks : list text) :
  forall (t : text) (w : world),
    fs w !! path = Some (File t) ->
    write_each path chunks w
    = ({| fs := <[path := File (t ++ concat chunks)]> (fs w);
          stdout := stdout w; stderr := stderr w |}, Return tt).
Proof.
  induction chunks as [|c chunks IH]; intros t w Hf; simpl.
  - unfold ret. rewrite app_nil_r, insert_id by assumption.
    now rewrite world_eta.
  - unfold bind, write. rewrite Hf.
    rewrite (IH (t ++ c)); simpl.
    + now rewrite insert_insert_eq, app_assoc.
    + apply lookup_insert_eq.
Qed.

Lemma write_file (path s t : text) (w : world) :
  fs w !! path = Some (File t) ->
  write path s w
  = ({| fs := <[path := File (t ++ s)]> (fs w);
        stdout := stdout w; stderr := stderr w |}, Return tt).
Proof. intros H. unfold write. now rewrite H. Qed.

Lemma use_badge_fstring_outcome (args : Namespace) (g : Geometry) :
  use_badge_fstring args g =
  if str_convertible (badge_x g) && str_convertible (badge_y g)
  then Return (use_badge (str_of_Z (badge_x g)) (str_of_Z (badge_y g))
                 (fst (badge_size args)) (snd (badge_size args)))
  else Raise ValueError.
Proof.
  unfold use_badge_fstring, str_int. destruct (badge_size args) as [bw bh].
  destruct (str_convertible (badge_x g)); [|reflexivity].
  destruct (str_convertible (badge_y g)); reflexivity.
Qed.

Lemma concat_document_split (args : Namespace) (g : Geometry) (src : Sources) :
  concat (document_chunks args g src)
  = concat (document_head args g src)
    ++ use_badge (str_of_Z (badge_x g)) (str_of_Z (badge_y g))
         (fst (badge_size args)) (snd (badge_size args))
    ++ str "</svg>" ++ nl.
Proof.
  unfold document_chunks. destruct (badge_size args) as [bw bh].
  rewrite concat_app. f_equal.
Qed.

(** What lines 82-92 leave: the whole document, or the first six
    writes when the f-string of line 90 raises, or nothing when the
    destination cannot be opened. *)
Lemma write_document_outcome (args : Namespace) (g : Geometry)
    (src : Sources) (w : world) :
  write_document host args g src w =
  if writable host (output args)
  then
    if str_convertible (badge_x g) && str_convertible (badge_y g)
    then ({| fs := <[output args := File (concat (document_chunks args g src))]> (fs w);
             stdout := stdout w; stderr := stderr w |}, Return tt)
    else ({| fs := <[output args := File (concat (document_head args g src))]> (fs w);
             stdout := stdout w; stderr := stderr w |}, Raise ValueError)
  else (w, Raise (IOError ModeW (output args))).
Proof.
  unfold write_document, bind, open_write.
  destruct (writable host (output args)); [|reflexivity].
  rewrite (write_each_file _ _ []) by apply lookup_insert_eq.
  cbn [fs stdout stderr app]. rewrite insert_insert_eq.
  unfold lift. rewrite use_badge_fstring_outcome.
  destruct (str_convertible (badge_x g) && str_convertible (badge_y g));
    [|reflexivity].
  erewrite write_file by apply lookup_insert_eq.
  cbn [fs stdout stderr]. rewrite insert_insert_eq.
  erewrite write_file by apply lookup_insert_eq.
  cbn [fs stdout stderr]. rewrite insert_insert_eq.
  now rewrite concat_document_split, <- !app_assoc.
Qed.

(** The world that [build] leaves when every step succeeds. *)
Lemma build_ok (args : Namespace) (g : Geometry) (tb tg : text) (w : world) :
  geometry args = Return g ->
  fs w !! base args = Some (File tb) ->
  fs w !! badge args = Some (File tg) ->
  writable host (output args) = true ->
  str_convertible (badge_x g) = true ->
  str_convertible (badge_y g) = true ->
  build host args w
  = ({| fs := <[output args :=
                  File (concat (document_chunks args g (sources_of args g tb tg)))]>
                (fs w);
        stdout := stdout w ++ [str "SVG exportiert: " ++ output args];
        stderr := stderr w |}, Return tt).
Proof.
  intros Hg Hb Hd Hw Hx Hy. unfold build, bind, lift. rewrite Hg.
  rewrite read_sources_outcome, Hb, Hd.
  rewrite write_document_outcome, Hw, Hx, Hy. reflexivity.
Qed.

(** The world that [build] leaves when the f-string of line 90 raises. *)
Lemma build_truncated (args : Namespace) (g : Geometry) (tb tg : text) (w : world) :
  geometry args = Return g ->
  fs w !! base args = Some (File tb) ->
  fs w !! badge args = Some (File tg) ->
  writable host (output args) = true ->
  str_convertible (badge_x g) && str_convertible (badge_y g) = false ->
  build host args w
  = ({| fs := <[output args :=
                  File (concat (document_head args g (sources_of args g tb tg)))]>
                (fs w);
        stdout := stdout w; stderr := stderr w |}, Raise ValueError).
Proof.
  intros Hg Hb Hd Hw Hxy. unfold build, bind, lift. rewrite Hg.
  rewrite read_sources_outcome, Hb, Hd.
  rewrite write_document_outcome, Hw, Hxy. reflexivity.
Qed.

Lemma build_returns (args : Namespace) (w w1 : world) :
  build host args w = (w1, Return tt) ->
  exists g tb tg,
    geometry args = Return g
    /\ fs w !! base args = Some (File tb)
    /\ fs w !! badge args = Some (File tg)
    /\ writable host (output args) = true
    /\ str_convertible (badge_x g) = true
    /\ str_convertible (badge_y g) = true.
Proof.
  unfold build, bind, lift.
  destruct (geometry args) as [g|e]; [|discriminate].
  rewrite read_sources_outcome.
  destruct (fs w !! base args) as [[tb| |]|]; try discriminate.
  destruct (fs w !! badge args) as [[tg| |]|]; try discriminate.
  rewrite write_document_outcome.
  destruct (writable host (output args)); [|discriminate].
  destruct (str_convertible (badge_x g)) eqn:Hx; [|discriminate].
  destruct (str_convertible (badge_y g)) eqn:Hy; [|discriminate].
  intros _. exists g, tb, tg. repeat split; assumption || reflexivity.
Qed.

Lemma build_raises (args : Namespace) (w w1 : world) (e : exn) :
  build host args w = (w1, Raise e) ->
  forall path, e <> IOError ModeR path.
Proof.
  unfold build, bind, lift.
  destruct (geometry args) as [g|e0] eqn:Hg.
  - rewrite read_sources_outcome.
    destruct (fs w !! base args) as [[tb| |]|];
      try (intros [= _ <-]; discriminate).
    destruct (fs w !! badge args) as [[tg| |]|];
      try (intros [= _ <-]; discriminate).
    rewrite write_document_outcome.
    destruct (writable host (output args)); [|intros [= _ <-]; discriminate].
    destruct (str_convertible (badge_x g) && str_convertible (badge_y g));
      [discriminate|]. intros [= _ <-]. discriminate.
  - intros [= _ <-] path.
    destruct (geometry_raises _ _ Hg) as [-> | ->]; discriminate.
Qed.

Lemma export_raises (args : Namespace) (w w1 : world) (e : exn) :
  export host args w = (w1, Raise e) -> e = SystemExit (inr 1).
Proof.
  unfold export. destruct (export_png args); [|discriminate].
  unfold try_except, bind, subprocess_run_check, print, print_stderr,
    sys_exit, raise.
  destruct (subprocess host _ (fs w)) as [msg|rc fs']; simpl.
  - now intros [= _ <-].
  - destruct (rc =? 0); simpl; [discriminate|]. now intros [= _ <-].
Qed.

End Blocks.

Lemma concat_document_chunks (args : Namespace) (g : Geometry) (src : Sources) :
  concat (document_chunks args g src) = render (composed args g src).
Proof.
  rewrite concat_document_split.
  unfold document_head, use_badge, render, composed, render_symbol, render_use.
  destruct (main_size args) as [bw bh], (badge_size args) as [dw dh].
  cbn [concat map fst snd doc_width doc_height doc_defs doc_uses
       sym_id sym_gap sym_viewBox sym_content
       use_href use_gap use_x use_y use_width use_height].
  rewrite !app_nil_r. repeat rewrite <- app_assoc. reflexivity.
Qed.

(** ** The whole run *)

(** C1, as amended.  When both files deliver their text, lines 76-79
    return; for a base file without a coordinate box the default is
    [0 0 {main_w} {main_h}], the scaled size of lines 63-64 that is also
    the size of the base placement (and depends on the main-scale); for
    a badge file without one it is [0 0 {badge_w} {badge_h}], the
    requested badge-size. *)
Theorem default_viewbox_is_placement_size
    (args : Namespace) (g : Geometry) (w : world) (tb tg : text) :
  geometry args = Return g ->
  fs w !! base args = Some (File tb) ->
  fs w !! badge args = Some (File tg) ->
  exists src, read_sources args g w = (w, Return src)
    /\ scaled (fst (main_size args)) (main_scale args) = Return (main_w g)
    /\ scaled (snd (main_size args)) (main_scale args) = Return (main_h g)
    /\ (find_viewBox tb = None ->
        base_vb src
        = str "0 0 " ++ str_of_Z (main_w g) ++ str " " ++ str_of_Z (main_h g))
    /\ (find_viewBox tg = None ->
        badge_vb src
        = str "0 0 " ++ str_of_Z (fst (badge_size args)) ++ str " "
            ++ str_of_Z (snd (badge_size args))).
Proof.
  intros Hg Hb Hd. exists (sources_of args g tb tg).
  destruct (geometry_returns _ _ Hg) as (Hw & Hh & _).
  rewrite read_sources_outcome, Hb, Hd. repeat split; try assumption.
  - simpl. now intros ->.
  - simpl. now intros ->.
Qed.

Lemma default_viewbox_is_placement_size_witness :
  let args := sample_args (400, 400) (100, 100) None f_half false in
  let w := sample_world (str "<svg><rect/></svg>") (str "<svg><circle/></svg>") in
  exists g src, geometry args = Return g
    /\ read_sources args g w = (w, Return src)
    /\ base_vb src = str "0 0 200 200"
    /\ badge_vb src = str "0 0 100 100".
Proof.
  intros args w.
  destruct (default_viewbox_is_placement_size args
              {| main_w := 200; main_h := 200; main_x := 100; main_y := 100;
                 badge_x := 300; badge_y := 300 |}
              w (str "<svg><rect/></svg>") (str "<svg><circle/></svg>")
              eq_refl eq_refl eq_refl) as (src & Hsrc & _ & _ & Hb & Hd).
  eexists. exists src. split; [reflexivity|]. split; [exact Hsrc|].
  split; [exact (Hb eq_refl)|exact (Hd eq_refl)].
Defined.

(** C1, as stated, fails for the base role: with main-size (400,400) and
    main-scale 0.5 the default of a base file without a coordinate box
    is [0 0 200 200], not [0 0 400 400]. *)
Lemma default_viewbox_depends_on_scale :
  ~ (forall (args : Namespace) (g : Geometry) (w : world) (tb : text)
            (src : Sources),
       geometry args = Return g ->
       fs w !! base args = Some (File tb) ->
       find_viewBox tb = None ->
       read_sources args g w = (w, Return src) ->
       base_vb src
       = str "0 0 " ++ str_of_Z (fst (main_size args)) ++ str " "
           ++ str_of_Z (snd (main_size args))).
Proof.
  intros H.
  specialize (H (sample_args (400, 400) (100, 100) None f_half false)
                {| main_w := 200; main_h := 200; main_x := 100; main_y := 100;
                   badge_x := 300; badge_y := 300 |}
                (sample_world (str "<svg><rect/></svg>") (str "<svg><circle/></svg>"))
                (str "<svg><rect/></svg>")
                (sources_of (sample_args (400, 400) (100, 100) None f_half false)
                   {| main_w := 200; main_h := 200; main_x := 100; main_y := 100;
                      badge_x := 300; badge_y := 300 |}
                   (str "<svg><rect/></svg>") (str "<svg><circle/></svg>"))
                eq_refl eq_refl eq_refl).
  assert (E : str "0 0 200 200" = str "0 0 400 400").
  { apply H. rewrite read_sources_outcome. reflexivity. }
  vm_compute in E. discriminate E.
Qed.

(** C6.  When the base path does not exist or cannot be opened, the
    process ends with exit status 1, one report on standard error,
    nothing printed on standard output and every file as it was; when
    the geometry step has returned, the report is the message of
    [extract_inner] that names the base path. *)
Theorem missing_base_is_fatal (host : Host) (args : Namespace) (w : world) :
  fs w !! base args = None \/ fs w !! base args = Some NoAccess ->
  exists r,
    run host args w
    = (1, {| fs := fs w; stdout := stdout w; stderr := stderr w ++ [r] |})
    /\ (forall g, geometry args = Return g ->
        r = Message (not_found_msg (base args))).
Proof.
  intros Hbase. unfold run, main, bind, build, bind, lift.
  destruct (geometry args) as [g|e] eqn:Hg.
  - rewrite read_sources_outcome.
    exists (Message (not_found_msg (base args))). split; [|reflexivity].
    destruct Hbase as [-> | ->]; reflexivity.
  - exists (Traceback e). split; [|discriminate].
    destruct (geometry_raises _ _ Hg) as [-> | ->]; reflexivity.
Qed.

Lemma missing_base_is_fatal_witness :
  let args := sample_args (24, 24) (6, 6) None f_one true in
  let w := one_file (str "badge.svg") (str "<svg><circle/></svg>") in
  exists r,
    run no_inkscape args w
    = (1, {| fs := fs w; stdout := []; stderr := [r] |})
    /\ (forall g, geometry args = Return g ->
        r = Message (not_found_msg (str "base.svg"))).
Proof.
  intros args w.
  exact (missing_base_is_fatal no_inkscape args w (or_introl eq_refl)).
Defined.

(** C8, as amended.  When the geometry step returns, both files deliver
    their text, the destination can be opened for writing and the
    badge position has no more than 4300 decimal digits in x and in y,
    lines 58-94 return and leave at the destination path, whatever was
    there before, exactly the rendering of: a root element with the canvas width and
    height, a definitions block with the symbol [matrix] (the coordinate
    box and the inner content of the base file) and the symbol
    [telegram] (those of the badge file), and two placements, of
    [matrix] at the base placement and of [telegram] at the badge
    placement with the badge size.  Without [--export-png] this is all
    of [main]. *)
Theorem composed_document_written
    (host : Host) (args : Namespace) (g : Geometry) (tb tg : text) (w : world) :
  geometry args = Return g ->
  fs w !! base args = Some (File tb) ->
  fs w !! badge args = Some (File tg) ->
  writable host (output args) = true ->
  str_convertible (badge_x g) = true ->
  str_convertible (badge_y g) = true ->
  let src := sources_of args g tb tg in
  let d :=
    {| doc_width := fst (main_size args);
       doc_height := snd (main_size args);
       doc_defs :=
         [ {| sym_id := str "matrix"; sym_gap := 2;
              sym_viewBox := base_vb src; sym_content := base_inner src |};
           {| sym_id := str "telegram"; sym_gap := 1;
              sym_viewBox := badge_vb src; sym_content := badge_inner src |} ];
       doc_uses :=
         [ {| use_href := str "matrix"; use_gap := 3;
              use_x := main_x g; use_y := main_y g;
              use_width := main_w g; use_height := main_h g |};
           {| use_href := str "telegram"; use_gap := 1;
              use_x := badge_x g; use_y := badge_y g;
              use_width := fst (badge_size args);
              use_height := snd (badge_size args) |} ] |} in
  exists w',
    build host args w = (w', Return tt)
    /\ fs w' = <[output args := File (render d)]> (fs w)
    /\ fs w' !! output args = Some (File (render d))
    /\ stdout w' = stdout w ++ [str "SVG exportiert: " ++ output args]
    /\ (export_png args = false -> main host args w = (w', Return tt)).
Proof.
  intros Hg Hb Hd Hw Hx Hy src d.
  eexists. split; [now apply (build_ok host args g tb tg)|].
  change d with (composed args g src). simpl.
  rewrite concat_document_chunks. repeat split.
  - apply lookup_insert_eq.
  - intros Hpng. unfold main, bind.
    rewrite (build_ok host args g tb tg) by assumption.
    unfold export. rewrite Hpng. unfold ret.
    now rewrite concat_document_chunks.
Qed.

Lemma composed_document_written_witness :
  let args := sample_args (24, 24) (6, 6) None f_one false in
  let w := sample_world (str "<svg viewBox='0 0 9 9'><rect/></svg>")
             (str "<svg><circle/></svg>") in
  exists doc,
    fs (fst (main no_inkscape args w)) !! str "out/combined.svg" = Some (File doc)
    /\ firstn 5 doc = str "<svg ".
Proof.
  intros args w.
  destruct (composed_document_written no_inkscape args
              {| main_w := 24; main_h := 24; main_x := 0; main_y := 0;
                 badge_x := 18; badge_y := 18 |}
              (str "<svg viewBox='0 0 9 9'><rect/></svg>")
              (str "<svg><circle/></svg>") w
              eq_refl eq_refl eq_refl eq_refl eq_refl eq_refl)
    as (w' & _ & _ & Hdoc & _ & Hmain).
  rewrite (Hmain eq_refl). simpl. eexists. split; [exact Hdoc|reflexivity].
Defined.

(** C8, as stated, fails: with main-size (24,24) and a badge width of
    minus the longest number that [int] parses, 4300 nines, the badge
    position x has 4301 digits, the f-string of line 90 raises
    [ValueError] and lines 58-94 do not return; the destination is left
    with the first six writes. *)
Lemma composed_document_cut_short_at_digit_limit :
  ~ (forall (host : Host) (args : Namespace) (g : Geometry) (tb tg : text)
            (w : world),
       geometry args = Return g ->
       fs w !! base args = Some (File tb) ->
       fs w !! badge args = Some (File tg) ->
       writable host (output args) = true ->
       exists w', build host args w = (w', Return tt)).
Proof.
  intros H.
  pose (args := sample_args (24, 24) (- longest_int, 6) None f_one false).
  pose (g := {| main_w := 24; main_h := 24; main_x := 0; main_y := 0;
                badge_x := 24 + longest_int; badge_y := 18 |}).
  pose (w := sample_world (str "<svg viewBox='0 0 9 9'><rect/></svg>")
               (str "<svg viewBox='0 0 9 9'><circle/></svg>")).
  assert (Hg : geometry args = Return g) by (vm_compute; reflexivity).
  destruct (H no_inkscape args g _ _ w Hg eq_refl eq_refl eq_refl)
    as [w' Hbuild].
  rewrite (build_truncated no_inkscape args g _ _ w Hg eq_refl eq_refl eq_refl)
    in Hbuild; [discriminate|].
  vm_compute. reflexivity.
Qed.

(** C7.  With [--export-png], once lines 58-94 have returned, the
    composed document is at the destination path.  If the converter
    cannot be started, the process ends with exit status 1 after one
    message on standard error, and the files are those that the
    composing left, the document among them.  If the converter exits
    with a non-zero status, the process ends with exit status 1 after
    one message on standard error, and the files are those that the
    converter left: the script does not touch the document again. *)
Theorem export_failure_after_write
    (host : Host) (args : Namespace) (w w1 : world) :
  export_png args = true ->
  build host args w = (w1, Return tt) ->
  let png_path := fst (splitext (output args)) ++ str ".png" in
  let cmd := inkscape_cmd args png_path in
  exists g tb tg,
    fs w1 !! output args
    = Some (File (render (composed args g (sources_of args g tb tg))))
    /\ (forall msg,
          subprocess host cmd (fs w1) = NotStarted msg ->
          run host args w
          = (1, {| fs := fs w1; stdout := stdout w1;
                   stderr := stderr w1
                     ++ [Message (str "Fehler beim PNG-Export: "
                                  ++ exn_str host (LaunchError msg))] |}))
    /\ (forall rc fs',
          subprocess host cmd (fs w1) = Exited rc fs' -> rc <> 0 ->
          run host args w
          = (1, {| fs := fs'; stdout := stdout w1;
                   stderr := stderr w1
                     ++ [Message (str "Fehler beim PNG-Export: "
                                  ++ exn_str host (CalledProcessError cmd rc))] |})).
Proof.
  intros Hpng Hbuild png_path cmd.
  destruct (build_returns _ _ _ _ Hbuild) as (g & tb & tg & Hg & Hb & Hd & Hw & Hx & Hy).
  exists g, tb, tg. split; [|split].
  - rewrite (build_ok host args g tb tg) in Hbuild by assumption.
    injection Hbuild as <-. simpl.
    rewrite concat_document_chunks. apply lookup_insert_eq.
  - intros msg Hsub. unfold run, main, bind. rewrite Hbuild.
    unfold export. rewrite Hpng.
    unfold try_except, bind, subprocess_run_check.
    fold png_path. fold cmd. rewrite Hsub. reflexivity.
  - intros rc fs' Hsub Hrc. unfold run, main, bind. rewrite Hbuild.
    unfold export. rewrite Hpng.
    unfold try_except, bind, subprocess_run_check.
    fold png_path. fold cmd. rewrite Hsub.
    destruct (Z.eqb_spec rc 0) as [->|_]; [easy|]. reflexivity.
Qed.

Lemma export_failure_after_write_witness :
  let args := sample_args (24, 24) (6, 6) None f_one true in
  let w := sample_world (str "<svg><rect/></svg>") (str "<svg><circle/></svg>") in
  fst (run no_inkscape args w) = 1
  /\ exists doc,
       fs (snd (run no_inkscape args w)) !! str "out/combined.svg"
       = Some (File doc).
Proof.
  intros args w.
  assert (Hbuild : build no_inkscape args w
                   = (fst (build no_inkscape args w), Return tt))
    by (vm_compute; reflexivity).
  destruct (export_failure_after_write no_inkscape args w _ eq_refl Hbuild)
    as (g & tb & tg & Hdoc & Hlaunch & _).
  rewrite (Hlaunch _ eq_refl). simpl. split; [reflexivity|].
  eexists. exact Hdoc.
Defined.

(** C9.  No run of [main] ends with the [IOError] of a read: by the
    time [get_viewbox] opens a path, [extract_inner] has returned for
    that path in the same world, so the text is there and [get_viewbox]
    returns.  On its own, [get_viewbox] does raise for a path that does
    not exist or cannot be opened. *)
Theorem get_viewbox_read_is_guarded (host : Host) (args : Namespace) (w : world) :
  (forall path, snd (main host args w) <> Raise (IOError ModeR path))
  /\ (forall path w' inner,
        extract_inner path w = (w', Return inner) ->
        exists vb, get_viewbox path w' = (w', Return vb))
  /\ (forall path,
        fs w !! path = None \/ fs w !! path = Some NoAccess ->
        get_viewbox path w = (w, Raise (IOError ModeR path))).
Proof.
  split; [|split].
  - intros path. unfold main, bind.
    destruct (build host args w) as [w1 [[]|e]] eqn:Hbuild; simpl.
    + destruct (export host args w1) as [w2 [[]|e]] eqn:Hexport; simpl.
      * discriminate.
      * now rewrite (export_raises _ _ _ _ _ Hexport).
    + intros [= ->]. now apply (build_raises _ _ _ _ _ Hbuild path).
  - intros path w' inner H.
    destruct (extract_inner_returns _ _ _ _ H) as (-> & t & Ht & _).
    exists (find_viewBox t). now apply get_viewbox_file.
  - intros path Hp. unfold get_viewbox, bind, open_read.
    destruct Hp as [-> | ->]; reflexivity.
Qed.

Lemma get_viewbox_read_is_guarded_witness :
  let w := one_file (str "badge.svg") (str "<svg viewBox='0 0 6 6'><circle/></svg>") in
  (exists vb, get_viewbox (str "badge.svg") w = (w, Return vb))
  /\ get_viewbox (str "base.svg") w = (w, Raise (IOError ModeR (str "base.svg"))).
Proof.
  intros w. split.
  - exact (proj1 (proj2 (get_viewbox_read_is_guarded no_inkscape
                           (sample_args (24, 24) (6, 6) None f_one false) w))
             (str "badge.svg") w (str "<circle/>") eq_refl).
  - exact (proj2 (proj2 (get_viewbox_read_is_guarded no_inkscape
                           (sample_args (24, 24) (6, 6) None f_one false) w))
             (str "base.svg") (or_introl eq_refl)).
Defined.

(** * Further properties of the script *)

(** ** What [extract_inner] returns *)

Lemma lstrip_head (s : text) (c : N) (r : text) :
  lstrip s = c :: r -> isspace c = false.
Proof.
  induction s as [|x s IH]; simpl; [discriminate|].
  destruct (isspace x) eqn:E; [exact IH|]. now intros [= <- _].
Qed.

Lemma lstrip_suffix (s : text) : exists a, s = a ++ lstrip s.
Proof.
  induction s as [|x s [a IH]]; simpl.
  - now exists [].
  - destruct (isspace x).
    + exists (x :: a). simpl. now f_equal.
    + now exists [].
Qed.

Lemma rstrip_prefix (s : text) : exists b, s = rstrip s ++ b.
Proof.
  unfold rstrip. destruct (lstrip_suffix (rev s)) as [a Ha].
  exists (rev a). rewrite <- rev_app_distr, <- Ha. now rewrite rev_involutive.
Qed.

Lemma strip_infix (s : text) : exists a b, s = a ++ strip s ++ b.
Proof.
  unfold strip. destruct (lstrip_suffix s) as [a Ha].
  destruct (rstrip_prefix (lstrip s)) as [b Hb].
  exists a, b. now rewrite <- Hb.
Qed.

Lemma strip_first (s : text) (c : N) (r : text) :
  strip s = c :: r -> isspace c = false.
Proof.
  unfold strip. intros H. destruct (rstrip_prefix (lstrip s)) as [b Hb].
  rewrite H in Hb. simpl in Hb. now apply lstrip_head in Hb.
Qed.

Lemma strip_last (s : text) (r : text) (c : N) :
  strip s = r ++ [c] -> isspace c = false.
Proof.
  unfold strip, rstrip. intros H. apply (f_equal (@rev N)) in H.
  rewrite rev_involutive, rev_app_distr in H. simpl in H.
  now apply lstrip_head in H.
Qed.

(** X1.  The content that [extract_inner] returns neither starts nor
    ends with a code point for which [str.isspace] holds. *)
Theorem extract_inner_trimmed (path : text) (w w' : world) (inner : text) :
  extract_inner path w = (w', Return inner) ->
  (forall c r, inner = c :: r -> isspace c = false)
  /\ (forall r c, inner = r ++ [c] -> isspace c = false).
Proof.
  intros H. destruct (extract_inner_returns _ _ _ _ H) as (_ & t & _ & ->).
  unfold strip_svg_tags. split.
  - intros c r. apply strip_first.
  - intros r c. apply strip_last.
Qed.

Lemma extract_inner_trimmed_witness :
  let w := one_file (str "icon.svg") (str "  <svg> <g/> x </svg>  ") in
  (forall c r, str "<g/> x" = c :: r -> isspace c = false)
  /\ (forall r c, str "<g/> x" = r ++ [c] -> isspace c = false).
Proof.
  intros w.
  exact (extract_inner_trimmed (str "icon.svg") w w (str "<g/> x") eq_refl).
Defined.

Lemma re_sub_del_sublist (m : text -> option nat) (s : text) :
  forall k, sublist (re_sub_del m k s) s.
Proof.
  induction s as [|c s IH]; intros k; simpl.
  - constructor.
  - destruct k as [|k].
    + destruct (m (c :: s)) as [[|j]|].
      * constructor. apply IH.
      * apply sublist_cons. apply IH.
      * constructor. apply IH.
    + apply sublist_cons. apply IH.
Qed.

Lemma strip_sublist (s : text) : sublist (strip s) s.
Proof.
  destruct (strip_infix s) as (a & b & H). rewrite H at 2.
  apply sublist_inserts_l, sublist_inserts_r. reflexivity.
Qed.

Lemma strip_svg_tags_sublist (t : text) : sublist (strip_svg_tags t) t.
Proof.
  unfold strip_svg_tags.
  etransitivity; [apply strip_sublist|].
  etransitivity; apply re_sub_del_sublist.
Qed.

(** X2.  [extract_inner] only deletes: the content it returns is the
    text of the file with some code points left out, the others in
    their order, so it is never longer than the file. *)
Theorem extract_inner_only_deletes (path : text) (w w' : world) (inner : text) :
  extract_inner path w = (w', Return inner) ->
  exists t, fs w !! path = Some (File t)
    /\ sublist inner t /\ (length inner <= length t)%nat.
Proof.
  intros H. destruct (extract_inner_returns _ _ _ _ H) as (_ & t & Ht & ->).
  exists t. split; [exact Ht|]. split.
  - apply strip_svg_tags_sublist.
  - apply sublist_length, strip_svg_tags_sublist.
Qed.

Lemma extract_inner_only_deletes_witness :
  let w := one_file (str "icon.svg") (str "<svg><g><svg/></g></svg>") in
  exists t, fs w !! str "icon.svg" = Some (File t)
    /\ sublist (str "<g></g>") t /\ (length (str "<g></g>") <= length t)%nat.
Proof.
  intros w.
  exact (extract_inner_only_deletes (str "icon.svg") w w (str "<g></g>") eq_refl).
Defined.

Lemma re_sub_del_nothing (m : text -> option nat) (p : list charclass) (t : text) :
  (forall s, prefix_matches p s = false -> m s = None) ->
  occurs p t = false -> re_sub_del m 0 t = t.
Proof.
  intros Hm Ht. rewrite <- (app_nil_r t) at 1. rewrite re_sub_del_keep.
  - simpl. apply app_nil_r.
  - intros a1 a2 -> _. apply Hm. rewrite app_nil_r.
    now apply (not_occurs_suffix p a1).
Qed.

(** X3.  A file is not checked for being an SVG: when its text holds
    neither [<svg] nor [</svg>] in any letter case, [extract_inner]
    raises nothing and returns the whole text, stripped of surrounding
    whitespace. *)
Theorem extract_inner_without_tags (path : text) (w : world) (t : text) :
  fs w !! path = Some (File t) ->
  occurs pat_open t = false -> occurs pat_close t = false ->
  extract_inner path w = (w, Return (strip t)).
Proof.
  intros Hf Ho Hc. rewrite (extract_inner_file _ _ _ Hf). unfold strip_svg_tags.
  rewrite (re_sub_del_nothing _ pat_open t match_open_tag_none Ho).
  now rewrite (re_sub_del_nothing _ pat_close t match_close_tag_none Hc).
Qed.

Lemma extract_inner_without_tags_witness :
  let w := one_file (str "notes.txt") (str " plain <b>text</b> ") in
  extract_inner (str "notes.txt") w = (w, Return (str "plain <b>text</b>")).
Proof.
  intros w.
  exact (extract_inner_without_tags (str "notes.txt") w
           (str " plain <b>text</b> ") eq_refl eq_refl eq_refl).
Defined.

(** ** What [get_viewbox] returns *)

Lemma prefix_matches_lit (l s : text) :
  prefix_matches (map lit l) s = true -> exists r, s = l ++ r.
Proof.
  revert s; induction l as [|c l IH]; intros s; simpl.
  - now exists s.
  - destruct s as [|x s]; [discriminate|].
    intros [Hc Hl]%andb_prop. apply N.eqb_eq in Hc as ->.
    destruct (IH _ Hl) as [r ->]. now exists r.
Qed.

Lemma span_unquoted_spec (s v r : text) :
  span_unquoted s = (v, r) -> s = v ++ r /\ unquoted v = true.
Proof.
  revert v r; induction s as [|c s IH]; intros v r; simpl.
  - now intros [= <- <-].
  - destruct (is_quote c) eqn:E.
    + now intros [= <- <-].
    + destruct (span_unquoted s) as [v' r']. intros [= <- <-].
      destruct (IH _ _ eq_refl) as [-> Hv]. simpl. now rewrite E.
Qed.

Lemma match_viewBox_some (s v : text) :
  match_viewBox s = Some v ->
  exists q q' rest,
    s = str "viewBox=" ++ q :: v ++ q' :: rest
    /\ is_quote q = true /\ is_quote q' = true
    /\ v <> [] /\ unquoted v = true.
Proof.
  unfold match_viewBox.
  destruct (prefix_matches pat_viewBox s) eqn:Hp; [|discriminate].
  apply prefix_matches_lit in Hp as [r ->].
  change (drop 8 (str "viewBox=" ++ r)) with r.
  destruct r as [|q r]; [discriminate|].
  destruct (is_quote q) eqn:Hq; [|discriminate].
  destruct (span_unquoted r) as [v' r'] eqn:Hspan.
  apply span_unquoted_spec in Hspan as [-> Hv'].
  destruct v' as [|c v']; [discriminate|].
  destruct r' as [|q' r']; [discriminate|].
  destruct (is_quote q') eqn:Hq'; [|discriminate].
  intros [= <-]. exists q, q', r'. repeat split; auto.
Qed.

Lemma re_search_some {A : Type} (m : text -> option A) (s : text) (g : A) :
  re_search m s = Some g -> exists a b, s = a ++ b /\ m b = Some g.
Proof.
  induction s as [|c s IH]; simpl.
  - destruct (m []) eqn:E; [|discriminate]. intros [= <-]. now exists [], [].
  - destruct (m (c :: s)) eqn:E.
    + intros [= <-]. now exists [], (c :: s).
    + intros H. destruct (IH H) as (a & b & -> & Hb).
      now exists (c :: a), b.
Qed.

Lemma find_viewBox_some (t v : text) :
  find_viewBox t = Some v ->
  exists pre q q' rest,
    t = pre ++ str "viewBox=" ++ q :: v ++ q' :: rest
    /\ is_quote q = true /\ is_quote q' = true
    /\ v <> [] /\ unquoted v = true.
Proof.
  intros H. apply re_search_some in H as (a & b & -> & Hb).
  apply match_viewBox_some in Hb as (q & q' & rest & -> & Hq & Hq' & Hv).
  now exists a, q, q', rest.
Qed.

(** X4.  A value that [get_viewbox] returns stands in the text of the
    file between two quote characters right behind the exactly spelled
    [viewBox=]; it is not empty and holds no quote character of either
    kind. *)
Theorem get_viewbox_value_is_quoted_in_text
    (path : text) (w w' : world) (v : text) :
  get_viewbox path w = (w', Return (Some v)) ->
  exists pre q q' rest,
    fs w !! path = Some (File (pre ++ str "viewBox=" ++ q :: v ++ q' :: rest))
    /\ is_quote q = true /\ is_quote q' = true
    /\ v <> [] /\ unquoted v = true.
Proof.
  unfold get_viewbox, bind, open_read, ret.
  destruct (fs w !! path) as [[t| |]|]; try discriminate.
  intros [= _ H].
  apply find_viewBox_some in H as (pre & q & q' & rest & -> & Hv).
  now exists pre, q, q', rest.
Qed.

Lemma get_viewbox_value_is_quoted_in_text_witness :
  let w := one_file (str "icon.svg") (str "<svg viewBox='0 0 24 24'><g/></svg>") in
  exists pre q q' rest,
    fs w !! str "icon.svg"
    = Some (File (pre ++ str "viewBox=" ++ q :: str "0 0 24 24" ++ q' :: rest))
    /\ is_quote q = true /\ is_quote q' = true
    /\ str "0 0 24 24" <> [] /\ unquoted (str "0 0 24 24") = true.
Proof.
  intros w.
  exact (get_viewbox_value_is_quoted_in_text (str "icon.svg") w w
           (str "0 0 24 24") eq_refl).
Defined.

(** X5.  A coordinate box found in a source file is taken over as it
    is, for each of the two files on its own: lines 78-79 bind it
    whatever the sizes and the scale are and whatever the other file
    declares, and the [<symbol>] written for that file carries it
    between double quotes.  The fallback of [or] is for the absent box
    only. *)
Theorem declared_viewbox_used_verbatim
    (args : Namespace) (g : Geometry) (w : world) (tb tg : text) :
  fs w !! base args = Some (File tb) ->
  fs w !! badge args = Some (File tg) ->
  exists src, read_sources args g w = (w, Return src)
    /\ (forall vb, find_viewBox tb = Some vb ->
        base_vb src = vb
        /\ document_chunks args g src !! 2%nat
           = Some (str "    <symbol id=" ++ dq (str "matrix") ++ str "  viewBox="
                     ++ dq vb ++ str ">" ++ nl ++ strip_svg_tags tb ++ nl
                     ++ str "    </symbol>" ++ nl))
    /\ (forall vg, find_viewBox tg = Some vg ->
        badge_vb src = vg
        /\ document_chunks args g src !! 3%nat
           = Some (str "    <symbol id=" ++ dq (str "telegram") ++ str " viewBox="
                     ++ dq vg ++ str ">" ++ nl ++ strip_svg_tags tg ++ nl
                     ++ str "    </symbol>" ++ nl)).
Proof.
  intros Hb Hd. exists (sources_of args g tb tg).
  rewrite read_sources_outcome, Hb, Hd. split; [reflexivity|].
  unfold document_chunks, document_head, sources_of.
  destruct (main_size args), (badge_size args). simpl.
  split.
  - intros vb Hvb.
    destruct (find_viewBox_some _ _ Hvb) as (_ & _ & _ & _ & _ & _ & _ & Hne & _).
    rewrite Hvb. destruct vb; [easy|]. simpl. auto.
  - intros vg Hvg.
    destruct (find_viewBox_some _ _ Hvg) as (_ & _ & _ & _ & _ & _ & _ & Hne & _).
    rewrite Hvg. destruct vg; [easy|]. simpl. auto.
Qed.

Lemma declared_viewbox_used_verbatim_witness :
  let args := sample_args (400, 400) (100, 100) None f_half false in
  let g := {| main_w := 200; main_h := 200; main_x := 100; main_y := 100;
              badge_x := 300; badge_y := 300 |} in
  let w := sample_world (str "<svg viewBox='0 0 24 24'><rect/></svg>")
             (str "<svg><circle/></svg>") in
  exists src,
    read_sources args g w = (w, Return src)
    /\ base_vb src = str "0 0 24 24"
    /\ document_chunks args g src !! 2%nat
       = Some (str "    <symbol id=" ++ dq (str "matrix") ++ str "  viewBox="
                 ++ dq (str "0 0 24 24") ++ str ">" ++ nl ++ str "<rect/>" ++ nl
                 ++ str "    </symbol>" ++ nl).
Proof.
  intros args g w.
  destruct (declared_viewbox_used_verbatim args g w
              (str "<svg viewBox='0 0 24 24'><rect/></svg>")
              (str "<svg><circle/></svg>") eq_refl eq_refl)
    as (src & Hsrc & Hbase & _).
  exists src. split; [exact Hsrc|].
  exact (Hbase (str "0 0 24 24") eq_refl).
Defined.

(** ** How a run ends *)

Section Endings.

Variable host : Host.

Lemma build_raise_cases (args : Namespace) (w w1 : world) (e : exn) :
  build host args w = (w1, Raise e) ->
  (w1 = w
   /\ (e = ValueError \/ e = OverflowError
       \/ (exists p, e = SystemExit (inl (not_found_msg p)))
       \/ (exists p, e = UnicodeDecodeError p)
       \/ e = IOError ModeW (output args)))
  \/ (e = ValueError
      /\ exists g tb tg,
           geometry args = Return g
           /\ fs w !! base args = Some (File tb)
           /\ fs w !! badge args = Some (File tg)
           /\ str_convertible (badge_x g) && str_convertible (badge_y g) = false
           /\ w1 = {| fs := <[output args :=
                               File (concat (document_head args g
                                               (sources_of args g tb tg)))]>
                             (fs w);
                      stdout := stdout w; stderr := stderr w |}).
Proof.
  unfold build, bind, lift.
  destruct (geometry args) as [g|e0] eqn:Hg.
  - rewrite read_sources_outcome.
    destruct (fs w !! base args) as [[tb| |]|] eqn:Hb;
      try (intros [= <- <-]; left; split; eauto 7).
    destruct (fs w !! badge args) as [[tg| |]|] eqn:Hd;
      try (intros [= <- <-]; left; split; eauto 7).
    rewrite write_document_outcome.
    destruct (writable host (output args));
      [|intros [= <- <-]; left; auto 7].
    destruct (str_convertible (badge_x g) && str_convertible (badge_y g))
      eqn:Hxy; [discriminate|].
    intros [= <- <-]. right. split; [reflexivity|].
    exists g, tb, tg. auto.
  - intros [= <- <-]. left. split; [reflexivity|].
    destruct (geometry_raises _ _ Hg) as [-> | ->]; auto.
Qed.

Lemma run_of_build_raise (args : Namespace) (w w1 : world) (e : exn) :
  build host args w = (w1, Raise e) ->
  exists r,
    run host args w
    = (1, {| fs := fs w1; stdout := stdout w; stderr := stderr w ++ [r] |}).
Proof.
  intros H. unfold run, main, bind. rewrite H.
  destruct (build_raise_cases _ _ _ _ H)
    as [[-> He] | (-> & g & tb & tg & _ & _ & _ & _ & ->)].
  - destruct He as [-> | [-> | [[p ->] | [[p ->] | ->]]]]; eauto.
  - eauto.
Qed.

(** X6.  When the base file delivers its text and the badge path does
    not exist or cannot be opened, the process ends with exit status 1
    and the message of [extract_inner] that names the badge path;
    nothing is printed on standard output and no file is touched. *)
Theorem missing_badge_is_fatal
    (args : Namespace) (w : world) (g : Geometry) (tb : text) :
  geometry args = Return g ->
  fs w !! base args = Some (File tb) ->
  fs w !! badge args = None \/ fs w !! badge args = Some NoAccess ->
  run host args w
  = (1, {| fs := fs w; stdout := stdout w;
           stderr := stderr w ++ [Message (not_found_msg (badge args))] |}).
Proof.
  intros Hg Hb Hd. unfold run, main, bind, build, bind, lift.
  rewrite Hg, read_sources_outcome, Hb.
  destruct Hd as [-> | ->]; reflexivity.
Qed.

(** X7.  A source file that is not valid UTF-8 is not reported by the
    message of [extract_inner]: [except IOError] lets the
    [UnicodeDecodeError] of [read()] through, and the process ends with
    a traceback and exit status 1, before any output. *)
Theorem undecodable_source_is_uncaught
    (args : Namespace) (w : world) (g : Geometry) (p : text) :
  geometry args = Return g ->
  (fs w !! base args = Some Undecodable /\ p = base args)
  \/ ((exists tb, fs w !! base args = Some (File tb))
      /\ fs w !! badge args = Some Undecodable /\ p = badge args) ->
  run host args w
  = (1, {| fs := fs w; stdout := stdout w;
           stderr := stderr w ++ [Traceback (UnicodeDecodeError p)] |}).
Proof.
  intros Hg Hp. unfold run, main, bind, build, bind, lift.
  rewrite Hg, read_sources_outcome.
  destruct Hp as [[-> ->] | ([tb ->] & -> & ->)]; reflexivity.
Qed.

(** X8.  When both sources are read and the destination cannot be
    opened for writing, the [OSError] of line 82 is caught nowhere: the
    process ends with a traceback and exit status 1, prints no
    confirmation and leaves every file as it was. *)
Theorem unwritable_destination_is_uncaught
    (args : Namespace) (w : world) (g : Geometry) (tb tg : text) :
  geometry args = Return g ->
  fs w !! base args = Some (File tb) ->
  fs w !! badge args = Some (File tg) ->
  writable host (output args) = false ->
  run host args w
  = (1, {| fs := fs w; stdout := stdout w;
           stderr := stderr w ++ [Traceback (IOError ModeW (output args))] |}).
Proof.
  intros Hg Hb Hd Hw. unfold run, main, bind, build, bind, lift.
  rewrite Hg, read_sources_outcome, Hb, Hd, write_document_outcome, Hw.
  reflexivity.
Qed.

(** X9.  Lines 58-94 change no file but the destination, whether they
    return or raise: the sources are only read (unless the destination
    is one of them).  When they raise, either the files and both
    streams are exactly as they were, or the exception is the
    [ValueError] of the f-string of line 90, nothing was printed, and
    the destination holds the first six writes: a document cut short. *)
Theorem build_touches_destination_only
    (args : Namespace) (w w1 : world) (r : res unit) :
  build host args w = (w1, r) ->
  (forall p, p <> output args -> fs w1 !! p = fs w !! p)
  /\ (forall e, r = Raise e ->
      w1 = w
      \/ (e = ValueError
          /\ stdout w1 = stdout w /\ stderr w1 = stderr w
          /\ exists g tb tg,
               geometry args = Return g
               /\ fs w !! base args = Some (File tb)
               /\ fs w !! badge args = Some (File tg)
               /\ str_convertible (badge_x g) && str_convertible (badge_y g)
                  = false
               /\ fs w1 !! output args
                  = Some (File (concat (document_head args g
                                          (sources_of args g tb tg)))))).
Proof.
  intros H. destruct r as [[]|e].
  - split; [|discriminate]. intros p Hp.
    destruct (build_returns _ _ _ _ H)
      as (g & tb & tg & Hg & Hb & Hd & Hw & Hx & Hy).
    rewrite (build_ok host args g tb tg) in H by assumption.
    injection H as <-. simpl. now apply lookup_insert_ne.
  - destruct (build_raise_cases _ _ _ _ H)
      as [[-> _] | (-> & g & tb & tg & Hg & Hb & Hd & Hxy & ->)].
    + split; [reflexivity|]. intros e' _. now left.
    + split.
      * intros p Hp. simpl. now apply lookup_insert_ne.
      * intros e' [= <-]. right. repeat split.
        exists g, tb, tg. repeat split; try assumption.
        simpl. apply lookup_insert_eq.
Qed.

(** X10.  Once [parse_args] has returned, the exit status of the run
    is 0 or 1.  With status 0 nothing was added to standard error; with
    status 1 exactly one report was added, a message or a traceback. *)
Theorem exit_status_and_report (args : Namespace) (w : world) :
  (fst (run host args w) = 0
   /\ stderr (snd (run host args w)) = stderr w)
  \/ (fst (run host args w) = 1
      /\ exists r, stderr (snd (run host args w)) = stderr w ++ [r]).
Proof.
  destruct (build host args w) as [w1 [[]|e]] eqn:Hbuild.
  - destruct (build_returns _ _ _ _ Hbuild) as (g & tb & tg & Hg & Hb & Hd & Hw & Hx & Hy).
    pose proof Hbuild as Hw1.
    rewrite (build_ok host args g tb tg) in Hw1 by assumption.
    injection Hw1 as <-.
    unfold run, main, bind. rewrite Hbuild. unfold export.
    destruct (export_png args); [|left; split; reflexivity].
    unfold try_except, bind, subprocess_run_check.
    match goal with
    | |- context [subprocess host ?c ?f] =>
        destruct (subprocess host c f) as [msg|rc fs']
    end; simpl.
    + right. split; [reflexivity|]. eauto.
    + destruct (rc =? 0); simpl.
      * left. split; reflexivity.
      * right. split; [reflexivity|]. eauto.
  - right. destruct (run_of_build_raise _ _ _ _ Hbuild) as [r ->].
    split; [reflexivity|]. now exists r.
Qed.

(** X11.  The converter is started only with [--export-png] and only
    after lines 58-94 have returned: otherwise the run is the same
    whatever the subprocess would have done. *)
Theorem converter_started_only_after_build
    (sp : list text -> gmap text node -> completed)
    (args : Namespace) (w : world) :
  export_png args = false
  \/ (exists w1 e, build host args w = (w1, Raise e)) ->
  run (with_subprocess host sp) args w = run host args w.
Proof.
  assert (Hsame : build (with_subprocess host sp) args w = build host args w)
    by reflexivity.
  intros [Hpng | (w1 & e & Hbuild)].
  - unfold run, main, bind. rewrite Hsame.
    destruct (build host args w) as [w1 [[]|e]]; [|reflexivity].
    unfold export. now rewrite Hpng.
  - unfold run, main, bind. rewrite Hsame, Hbuild. reflexivity.
Qed.

(** X12.  With [--export-png], when lines 58-94 have returned and the
    converter exits with status 0, the process ends with exit status 0,
    both confirmations on standard output, nothing on standard error
    and the files as the converter left them.  The converter was given
    the destination, the sibling path with the extension [.png] and the
    canvas width and height. *)
Theorem export_success
    (args : Namespace) (w w1 : world) (fs' : gmap text node) :
  export_png args = true ->
  build host args w = (w1, Return tt) ->
  let png_path := fst (splitext (output args)) ++ str ".png" in
  subprocess host
    [ str "inkscape"; output args; str "--export-type=png";
      str "--export-filename"; png_path;
      str "--export-width"; str_of_Z (fst (main_size args));
      str "--export-height"; str_of_Z (snd (main_size args)) ]
    (fs w1) = Exited 0 fs' ->
  run host args w
  = (0, {| fs := fs';
           stdout := stdout w ++ [str "SVG exportiert: " ++ output args;
                                  str "PNG exportiert: " ++ png_path];
           stderr := stderr w |}).
Proof.
  intros Hpng Hbuild png_path Hsub.
  destruct (build_returns _ _ _ _ Hbuild) as (g & tb & tg & Hg & Hb & Hd & Hw & Hx & Hy).
  pose proof Hbuild as Hw1.
  rewrite (build_ok host args g tb tg) in Hw1 by assumption.
  injection Hw1 as <-.
  unfold run, main, bind. rewrite Hbuild. unfold export. rewrite Hpng.
  unfold try_except, bind, subprocess_run_check, inkscape_cmd.
  fold png_path. destruct (main_size args) as [bw bh]. simpl in *.
  rewrite Hsub. simpl. now rewrite <- app_assoc.
Qed.

End Endings.

Lemma missing_badge_is_fatal_witness :
  let args := sample_args (24, 24) (6, 6) None f_one true in
  let w := one_file (str "base.svg") (str "<svg><rect/></svg>") in
  run no_inkscape args w
  = (1, {| fs := fs w; stdout := [];
           stderr := [Message (not_found_msg (str "badge.svg"))] |}).
Proof.
  intros args w.
  exact (missing_badge_is_fatal no_inkscape args w
           {| main_w := 24; main_h := 24; main_x := 0; main_y := 0;
              badge_x := 18; badge_y := 18 |}
           (str "<svg><rect/></svg>") eq_refl eq_refl (or_introl eq_refl)).
Defined.

Lemma undecodable_source_is_uncaught_witness :
  let args := sample_args (24, 24) (6, 6) None f_one false in
  let w := {| fs := {[ str "base.svg" := Undecodable ]};
              stdout := []; stderr := [] |} in
  run no_inkscape args w
  = (1, {| fs := fs w; stdout := [];
           stderr := [Traceback (UnicodeDecodeError (str "base.svg"))] |}).
Proof.
  intros args w.
  exact (undecodable_source_is_uncaught no_inkscape args w
           {| main_w := 24; main_h := 24; main_x := 0; main_y := 0;
              badge_x := 18; badge_y := 18 |}
           (str "base.svg") eq_refl (or_introl (conj eq_refl eq_refl))).
Defined.

Lemma unwritable_destination_is_uncaught_witness :
  let args := sample_args (24, 24) (6, 6) None f_one false in
  let w := sample_world (str "<svg><rect/></svg>") (str "<svg><circle/></svg>") in
  run read_only args w
  = (1, {| fs := fs w; stdout := [];
           stderr := [Traceback (IOError ModeW (str "out/combined.svg"))] |}).
Proof.
  intros args w.
  exact (unwritable_destination_is_uncaught read_only args w
           {| main_w := 24; main_h := 24; main_x := 0; main_y := 0;
              badge_x := 18; badge_y := 18 |}
           (str "<svg><rect/></svg>") (str "<svg><circle/></svg>")
           eq_refl eq_refl eq_refl eq_refl).
Defined.

Lemma build_touches_destination_only_witness :
  let args := sample_args (24, 24) (6, 6) None f_one false in
  let w := sample_world (str "<svg><rect/></svg>") (str "<svg><circle/></svg>") in
  fs (fst (build no_inkscape args w)) !! str "base.svg"
  = Some (File (str "<svg><rect/></svg>")).
Proof.
  intros args w.
  assert (Hbuild : build no_inkscape args w
                   = (fst (build no_inkscape args w), Return tt))
    by (vm_compute; reflexivity).
  destruct (build_touches_destination_only no_inkscape args w _ _ Hbuild)
    as [Hframe _].
  rewrite (Hframe (str "base.svg")); [reflexivity|discriminate].
Defined.

Lemma converter_started_only_after_build_witness :
  let args := sample_args (24, 24) (6, 6) None f_one false in
  let w := sample_world (str "<svg><rect/></svg>") (str "<svg><circle/></svg>") in
  run working_inkscape args w = run no_inkscape args w.
Proof.
  intros args w.
  exact (converter_started_only_after_build no_inkscape
           (subprocess working_inkscape) args w (or_introl eq_refl)).
Defined.

Lemma export_success_witness :
  let args := sample_args (24, 24) (6, 6) None f_one true in
  let w := sample_world (str "<svg><rect/></svg>") (str "<svg><circle/></svg>") in
  fst (run working_inkscape args w) = 0
  /\ stdout (snd (run working_inkscape args w))
     = [str "SVG exportiert: out/combined.svg";
        str "PNG exportiert: out/combined.png"]
  /\ fs (snd (run working_inkscape args w)) !! str "out/combined.png"
     = Some (File (str "PNG")).
Proof.
  intros args w.
  assert (Hbuild : build working_inkscape args w
                   = (fst (build working_inkscape args w), Return tt))
    by (vm_compute; reflexivity).
  rewrite (export_success working_inkscape args w _ _ eq_refl Hbuild eq_refl).
  repeat split; vm_compute; reflexivity.
Defined.

(** ** The geometry on the intended domain *)

(** X13.  The base placement is centred: on each axis the space left of
    (above) the base and the space right of (below) it differ by at
    most one unit, the first being the smaller; when the scaled size
    lies between 0 and the canvas size, the placement lies within the
    canvas. *)
Theorem base_placement_centered (args : Namespace) (g : Geometry) :
  geometry args = Return g ->
  let bw := fst (main_size args) in
  let bh := snd (main_size args) in
  (0 <= (bw - main_w g - main_x g) - main_x g <= 1)
  /\ (0 <= (bh - main_h g - main_y g) - main_y g <= 1)
  /\ (0 <= main_w g <= bw -> 0 <= main_x g /\ main_x g + main_w g <= bw)
  /\ (0 <= main_h g <= bh -> 0 <= main_y g /\ main_y g + main_h g <= bh).
Proof.
  intros Hg bw bh.
  destruct (geometry_returns _ _ Hg) as (_ & _ & Hx & Hy & _).
  fold bw in Hx. fold bh in Hy. rewrite Hx, Hy.
  repeat split; intros; Z.div_mod_to_equations; lia.
Qed.

Lemma base_placement_centered_witness :
  let g := {| main_w := 10; main_h := 10; main_x := 7; main_y := 7;
              badge_x := 19; badge_y := 19 |} in
  (0 <= (25 - main_w g - main_x g) - main_x g <= 1)
  /\ (0 <= (25 - main_h g - main_y g) - main_y g <= 1)
  /\ (0 <= main_w g <= 25 -> 0 <= main_x g /\ main_x g + main_w g <= 25)
  /\ (0 <= main_h g <= 25 -> 0 <= main_y g /\ main_y g + main_h g <= 25).
Proof.
  intros g.
  exact (base_placement_centered
           (sample_args (25, 25) (6, 6) None
              (S754_finite false 7205759403792794 (-54)) false)
           g eq_refl).
Defined.

Lemma binary_round_aux_sign (sx : bool) (mx ex : Z) (lx : location) :
  is_negative (binary_round_aux prec emax sx mx ex lx) = true -> sx = true.
Proof.
  unfold binary_round_aux.
  destruct (shr_fexp prec emax mx ex lx) as [mrs' e'].
  destruct (shr_fexp prec emax _ e' loc_Exact) as [mrs'' e''].
  destruct (shr_m mrs''); simpl; try discriminate.
  destruct (_ <=? _); simpl; [|discriminate]. now destruct sx.
Qed.

Lemma float_of_int_sign (n : Z) (fz : float) :
  0 <= n -> float_of_int n = Return fz -> is_negative fz = false.
Proof.
  intros Hn. unfold float_of_int, binary_normalize.
  destruct n as [|p|p]; [now intros [= <-]| |lia].
  unfold binary_round.
  destruct (shl_align _ _ _) as [mz ez].
  destruct (binary_round_aux prec emax false (Z.pos mz) ez loc_Exact) eqn:E;
    intros [= <-]; try reflexivity.
  destruct (is_negative (S754_finite s m e)) eqn:Hs; [|reflexivity].
  rewrite <- E in Hs. now apply binary_round_aux_sign in Hs.
Qed.

Lemma SFmul_sign (x y : float) :
  is_negative x = false -> is_negative y = false ->
  is_negative (SFmul prec emax x y) = false.
Proof.
  intros Hx Hy.
  destruct x as [sx|sx| |sx mx ex], y as [sy|sy| |sy my ey];
    try reflexivity.
  destruct sx; [discriminate|]. destruct sy; [discriminate|]. simpl.
  destruct (is_negative (binary_round_aux prec emax false
                           (Z.pos (mx * my)) (ex + ey) loc_Exact)) eqn:E;
    [|reflexivity].
  now apply binary_round_aux_sign in E.
Qed.

Lemma int_mul_float_sign (n : Z) (x fw : float) :
  0 <= n -> is_negative x = false -> int_mul_float n x = Return fw ->
  is_negative fw = false.
Proof.
  intros Hn Hx. unfold int_mul_float.
  destruct (float_of_int n) as [fz|] eqn:E; [|discriminate].
  simpl. intros [= <-]. apply SFmul_sign; [|exact Hx].
  now apply (float_of_int_sign n).
Qed.

Lemma floor_nonnegative (x : float) :
  is_negative x = false -> 0 <= Qfloor (Q_of_float x).
Proof.
  destruct x as [? | ? | | [|] m e]; try discriminate; intros _;
    try (simpl; lia).
  rewrite <- shiftl_floor. now apply Z.shiftl_nonneg.
Qed.

(** X14.  For a canvas size that is not negative and a scale that is
    not negative, whenever the binary64 products are finite, the width
    and the height of the base placement are exactly the floors of the
    products, and they are not negative. *)
Theorem base_size_is_floor_for_nonnegative_scale
    (args : Namespace) (fw fh : float) :
  0 <= fst (main_size args) -> 0 <= snd (main_size args) ->
  is_negative (main_scale args) = false ->
  int_mul_float (fst (main_size args)) (main_scale args) = Return fw ->
  int_mul_float (snd (main_size args)) (main_scale args) = Return fh ->
  is_finite fw = true -> is_finite fh = true ->
  exists g, geometry args = Return g
    /\ main_w g = Qfloor (Q_of_float fw)
    /\ main_h g = Qfloor (Q_of_float fh)
    /\ 0 <= main_w g /\ 0 <= main_h g.
Proof.
  intros Hbw Hbh Hs Hw Hh Fw Fh.
  pose proof (int_mul_float_sign _ _ _ Hbw Hs Hw) as Nw.
  pose proof (int_mul_float_sign _ _ _ Hbh Hs Hh) as Nh.
  eexists. split.
  - apply geometry_of_scaled.
    + rewrite (scaled_of_product _ _ _ Hw). now apply int_of_float_floor.
    + rewrite (scaled_of_product _ _ _ Hh). now apply int_of_float_floor.
  - simpl. auto using floor_nonnegative.
Qed.

Lemma base_size_is_floor_for_nonnegative_scale_witness :
  exists g, geometry (sample_args (10, 10) (6, 6) None f_seven_tenths false) = Return g
    /\ main_w g = 7 /\ main_h g = 7 /\ 0 <= main_w g /\ 0 <= main_h g.
Proof.
  exact (base_size_is_floor_for_nonnegative_scale
           (sample_args (10, 10) (6, 6) None f_seven_tenths false)
           (S754_finite false 7881299347898368 (-50))
           (S754_finite false 7881299347898368 (-50))
           ltac:(discriminate) ltac:(discriminate)
           eq_refl eq_refl eq_refl eq_refl eq_refl).
Defined.

(** ** The path of the PNG *)

Lemma splitext_join (p : text) : fst (splitext p) ++ snd (splitext p) = p.
Proof.
  unfold splitext.
  destruct (rfind c_slash p <? rfind c_dot p); [|apply app_nil_r].
  destruct (existsb _ _); simpl; [apply take_drop|apply app_nil_r].
Qed.

(** X15.  The converter reads the destination and writes the path made
    of the destination without its extension and [.png]; the two are
    the same path exactly when the extension of the destination is
    [.png] already. *)
Theorem png_path_is_destination_iff (args : Namespace) :
  let png_path := fst (splitext (output args)) ++ str ".png" in
  inkscape_cmd args png_path !! 1%nat = Some (output args)
  /\ inkscape_cmd args png_path !! 4%nat = Some png_path
  /\ (png_path = output args <-> snd (splitext (output args)) = str ".png").
Proof.
  intros png_path. unfold inkscape_cmd. destruct (main_size args).
  split; [reflexivity|]. split; [reflexivity|].
  unfold png_path. rewrite <- (splitext_join (output args)) at 2. split.
  - intros H. now apply app_inv_head in H.
  - now intros ->.
Qed.

Lemma png_path_is_destination_iff_witness :
  fst (splitext (str "out/icon.png")) ++ str ".png" = str "out/icon.png".
Proof.
  apply (proj2 (proj2 (png_path_is_destination_iff
                         {| base := str "base.svg"; badge := str "badge.svg";
                            output := str "out/icon.png";
                            main_size := (24, 24); badge_size := (6, 6);
                            badge_offset := None; main_scale := f_one;
                            export_png := true |}))).
  reflexivity.
Defined.

Lemma rfind_bounds (c : N) (s : text) :
  -1 <= rfind c s < Z.of_nat (length s).
Proof.
  induction s as [|x s IH]; simpl length; simpl rfind; [lia|].
  rewrite Nat2Z.inj_succ.
  destruct (Z.leb_spec 0 (rfind c s)); [lia|].
  destruct (N.eqb x c); lia.
Qed.

Lemma rfind_free (c : N) (s : text) : free_of c s = true -> rfind c s = -1.
Proof.
  induction s as [|x s IH]; simpl; [reflexivity|].
  intros [Hx Hs]%andb_prop. rewrite (IH Hs). simpl.
  apply negb_true_iff in Hx. now rewrite Hx.
Qed.

Lemma rfind_app (c : N) (a b : text) :
  rfind c (a ++ b)
  = if 0 <=? rfind c b then Z.of_nat (length a) + rfind c b else rfind c a.
Proof.
  induction a as [|x a IH].
  - simpl. pose proof (rfind_bounds c b).
    destruct (Z.leb_spec 0 (rfind c b)); lia.
  - simpl app. simpl rfind. rewrite IH. simpl length. rewrite Nat2Z.inj_succ.
    pose proof (rfind_bounds c a).
    destruct (Z.leb_spec 0 (rfind c b)); [|reflexivity].
    destruct (Z.leb_spec 0 (Z.of_nat (length a) + rfind c b)); lia.
Qed.

Lemma rfind_last (c : N) (d : text) :
  rfind c (d ++ [c]) = Z.of_nat (length d).
Proof. rewrite rfind_app. simpl. rewrite N.eqb_refl. simpl. lia. Qed.

Lemma free_of_app (c : N) (a b : text) :
  free_of c (a ++ b) = free_of c a && free_of c b.
Proof. unfold free_of. apply forallb_app. Qed.

Lemma splitext_stem (d n e : text) :
  d = [] \/ (exists d', d = d' ++ [c_slash]) ->
  free_of c_slash n = true ->
  existsb (fun c => negb (N.eqb c c_dot)) n = true ->
  free_of c_slash e = true -> free_of c_dot e = true ->
  splitext (d ++ n ++ c_dot :: e) = (d ++ n, c_dot :: e).
Proof.
  intros Hd Hn Hstem Hes Hed. unfold splitext.
  assert (Hsep : rfind c_slash (d ++ n ++ c_dot :: e) = Z.of_nat (length d) - 1).
  { rewrite rfind_app, rfind_free.
    - simpl. destruct Hd as [-> | [d' ->]]; [reflexivity|].
      rewrite rfind_last, length_app. simpl. lia.
    - rewrite free_of_app, Hn. simpl. exact Hes. }
  assert (Hdot : rfind c_dot (d ++ n ++ c_dot :: e)
                 = Z.of_nat (length d) + Z.of_nat (length n)).
  { replace (d ++ n ++ c_dot :: e) with (((d ++ n) ++ [c_dot]) ++ e)
      by (now rewrite <- !app_assoc).
    rewrite rfind_app, (rfind_free _ e Hed). simpl.
    rewrite rfind_last, length_app. lia. }
  rewrite Hsep, Hdot.
  destruct (Z.ltb_spec (Z.of_nat (length d) - 1)
              (Z.of_nat (length d) + Z.of_nat (length n))); [|lia].
  replace (Z.to_nat (Z.of_nat (length d) - 1 + 1)) with (length d) by lia.
  replace (Z.to_nat (Z.of_nat (length d) + Z.of_nat (length n)
                     - (Z.of_nat (length d) - 1 + 1))) with (length n) by lia.
  replace (Z.to_nat (Z.of_nat (length d) + Z.of_nat (length n)))
    with (length (d ++ n)) by (rewrite length_app; lia).
  rewrite drop_app_length, take_app_length, Hstem.
  rewrite (app_assoc d n). now rewrite take_app_length, drop_app_length.
Qed.

Lemma splitext_no_dot (p : text) :
  free_of c_dot p = true -> splitext p = (p, []).
Proof.
  intros Hp. unfold splitext. rewrite (rfind_free _ _ Hp).
  pose proof (rfind_bounds c_slash p).
  destruct (Z.ltb_spec (rfind c_slash p) (-1)); [lia|reflexivity].
Qed.

(** X16.  For a destination made of a directory part (empty or ending
    with [/]), a file name that holds no [/] and not only dots, a dot
    and an extension without [/] and dot, the PNG goes to the same
    directory under the same file name with the extension [png]; for a
    destination without any dot, [.png] is appended. *)
Theorem png_path_replaces_extension :
  (forall (args : Namespace) (d n e : text),
      output args = d ++ n ++ c_dot :: e ->
      d = [] \/ (exists d', d = d' ++ [c_slash]) ->
      free_of c_slash n = true ->
      existsb (fun c => negb (N.eqb c c_dot)) n = true ->
      free_of c_slash e = true -> free_of c_dot e = true ->
      fst (splitext (output args)) ++ str ".png" = d ++ n ++ str ".png")
  /\ (forall (args : Namespace),
        free_of c_dot (output args) = true ->
        fst (splitext (output args)) ++ str ".png"
        = output args ++ str ".png").
Proof.
  split.
  - intros args d n e -> Hd Hn Hstem Hes Hed.
    rewrite splitext_stem by assumption. simpl. now rewrite <- app_assoc.
  - intros args Hp. now rewrite splitext_no_dot.
Qed.

Lemma png_path_replaces_extension_witness :
  fst (splitext (str "out/v1.2/combined.svg")) ++ str ".png"
  = str "out/v1.2/combined.png"
  /\ fst (splitext (str "combined")) ++ str ".png" = str "combined.png".
Proof.
  split.
  - exact (proj1 png_path_replaces_extension
             {| base := []; badge := []; output := str "out/v1.2/combined.svg";
                main_size := (24, 24); badge_size := (6, 6);
                badge_offset := None; main_scale := f_one; export_png := true |}
             (str "out/v1.2/") (str "combined") (str "svg")
             eq_refl (or_intror (ex_intro _ (str "out/v1.2") eq_refl))
             eq_refl eq_refl eq_refl eq_refl).
  - exact (proj2 png_path_replaces_extension
             {| base := []; badge := []; output := str "combined";
                main_size := (24, 24); badge_size := (6, 6);
                badge_offset := None; main_scale := f_one; export_png := true |}
             eq_refl).
Defined.

(** ** The two extractions on one file *)

(** X17.  The two extractions work on the same text independently: for
    a file with one root element whose opening tag declares the first
    [viewBox=] of the text, [get_viewbox] returns that value although
    [extract_inner] drops the opening tag that holds it, so the symbol
    keeps the coordinate system of the root that was removed. *)
Theorem root_viewbox_survives_tag_stripping
    (w : world) (path pre a1 a2 vb inner post : text)
    (s v g s' v' g' q q' : N) :
  is_s s = true -> is_v v = true -> is_g g = true ->
  is_s s' = true -> is_v v' = true -> is_g g' = true ->
  is_quote q = true -> is_quote q' = true ->
  vb <> [] -> unquoted vb = true ->
  free_of c_gt (a1 ++ str "viewBox=" ++ q :: vb ++ q' :: a2) = true ->
  occurs pat_viewBox (pre ++ [c_lt; s; v; g] ++ a1) = false ->
  occurs pat_open (pre ++ inner ++ post) = false ->
  occurs pat_close (pre ++ inner ++ post) = false ->
  fs w !! path
    = Some (File (pre
                  ++ opening s v g (a1 ++ str "viewBox=" ++ q :: vb ++ q' :: a2)
                  ++ inner ++ closing s' v' g' ++ post)) ->
  extract_inner path w = (w, Return (strip (pre ++ inner ++ post)))
  /\ get_viewbox path w = (w, Return (Some vb)).
Proof.
  intros Hs Hv Hg Hs' Hv' Hg' Hq Hq' Hne Hvb Hattrs Hpre Hopen Hclose Hfile.
  split.
  - rewrite (extract_inner_file _ _ _ Hfile). do 2 f_equal.
    now apply strip_svg_tags_single_root.
  - rewrite (get_viewbox_file _ _ _ Hfile). do 2 f_equal.
    unfold opening.
    replace (pre ++ ([c_lt; s; v; g]
                     ++ (a1 ++ str "viewBox=" ++ q :: vb ++ q' :: a2) ++ [c_gt])
                 ++ inner ++ closing s' v' g' ++ post)
      with ((pre ++ [c_lt; s; v; g] ++ a1)
            ++ str "viewBox=" ++ q :: vb ++ q'
               :: (a2 ++ [c_gt] ++ inner ++ closing s' v' g' ++ post)).
    + now apply find_viewBox_first.
    + simpl. rewrite <- !app_assoc. simpl. do 5 f_equal.
      now rewrite <- !app_assoc.
Qed.

Lemma root_viewbox_survives_tag_stripping_witness :
  let w := one_file (str "icon.svg")
             (str "<svg width='24' viewBox='0 0 24 24' fill='none'> <g viewBox='1 1 1 1'/> </svg>") in
  extract_inner (str "icon.svg") w = (w, Return (str "<g viewBox='1 1 1 1'/>"))
  /\ get_viewbox (str "icon.svg") w = (w, Return (Some (str "0 0 24 24"))).
Proof.
  intros w.
  apply (root_viewbox_survives_tag_stripping w (str "icon.svg") []
           (str " width='24' ") (str " fill='none'") (str "0 0 24 24")
           (str " <g viewBox='1 1 1 1'/> ") []
           115%N 118%N 103%N 115%N 118%N 103%N c_apos c_apos);
    try reflexivity. discriminate.
Defined.
